(** * Orbweaver-uploader: release-note extraction pipeline

    A shallow embedding of [Orbweaver-uploader.py] and the properties of
    its sanitizer, name resolver, rewrite step, extractor and orchestrator.

    Text model.  A Python [str] is modelled as a list of characters, a
    character being a code point below 256 (type [ascii]).  On that range
    [str.lower], [str.strip], [str.split] and case-insensitive matching of
    an escaped (literal) pattern act character by character, which is what
    the definitions below follow. *)

From Stdlib Require Import Ascii String List Bool Arith Lia.
Import ListNotations.

Set Implicit Arguments.

Local Open Scope list_scope.

(** ** Characters and strings *)

Definition text := list ascii.

Definition str (s : string) : text := list_ascii_of_string s.

Definition code (c : ascii) : nat := nat_of_ascii c.

Definition in_range (lo hi : nat) (c : ascii) : bool :=
  (lo <=? code c) && (code c <=? hi).

Definition SPACE : ascii := " "%char.
Definition NEWLINE : ascii := "010"%char.
Definition TAB : ascii := "009"%char.
Definition COMMA : ascii := ","%char.
Definition BACKSLASH : ascii := "\"%char.

(** [str.isspace] on one character: TAB..CR, FS..US, space, NEL, NBSP. *)
Definition is_space (c : ascii) : bool :=
  in_range 9 13 c || in_range 28 32 c
  || (code c =? 133) || (code c =? 160).

(** Cased upper-case letters below 256: A-Z and the Latin-1 capitals
    (all of 192..222 but the multiplication sign 215). *)
Definition is_upper (c : ascii) : bool :=
  in_range 65 90 c || (in_range 192 222 c && negb (code c =? 215)).

Definition lower_char (c : ascii) : ascii :=
  if is_upper c then ascii_of_nat (code c + 32) else c.

(** [s.lower()] *)
Definition lower (s : text) : text := map lower_char s.

Definition text_eqb (a b : text) : bool :=
  if list_eq_dec ascii_dec a b then true else false.

(** [a.lower() == b.lower()] *)
Definition eq_ci (a b : text) : bool := text_eqb (lower a) (lower b).

(** [s.lstrip()], [s.rstrip()], [s.strip()] *)
Fixpoint lstrip (s : text) : text :=
  match s with
  | [] => []
  | c :: s' => if is_space c then lstrip s' else s
  end.

Definition rstrip (s : text) : text := rev (lstrip (rev s)).

Definition strip (s : text) : text := rstrip (lstrip s).

(** [s.split(sep)] for a one-character separator: never returns the empty
    list; the empty string gives one empty field. *)
Fixpoint split_on (sep : ascii) (s : text) : list text :=
  match s with
  | [] => [[]]
  | c :: s' =>
      if (c =? sep)%char then [] :: split_on sep s'
      else match split_on sep s' with
           | [] => [[c]]
           | f :: fs => (c :: f) :: fs
           end
  end.

(** [s.split()]: fields separated by runs of white space, no empty field. *)
Fixpoint split_ws_aux (cur : text) (s : text) : list text :=
  match s with
  | [] => match cur with [] => [] | _ => [rev cur] end
  | c :: s' =>
      if is_space c
      then match cur with
           | [] => split_ws_aux [] s'
           | _ => rev cur :: split_ws_aux [] s'
           end
      else split_ws_aux (c :: cur) s'
  end.

Definition split_ws (s : text) : list text := split_ws_aux [] s.

(** [sep.join(parts)] *)
Fixpoint join (sep : text) (parts : list text) : text :=
  match parts with
  | [] => []
  | [p] => p
  | p :: ps => p ++ sep ++ join sep ps
  end.

(** ** [sanitize_text] *)

Definition is_newline_or_tab (c : ascii) : bool :=
  (c =? NEWLINE)%char || (c =? TAB)%char.

(** [re.sub(r"[\n\t]+", "", text)]: every newline and tab goes. *)
Definition remove_newlines_tabs (s : text) : text :=
  filter (fun c => negb (is_newline_or_tab c)) s.

(** [re.sub(' +', " ", text)]: each maximal run of spaces becomes one. *)
Fixpoint collapse_spaces (s : text) : text :=
  match s with
  | [] => []
  | c :: s' =>
      if (c =? SPACE)%char
      then match s' with
           | c' :: _ =>
               if (c' =? SPACE)%char then collapse_spaces s'
               else c :: collapse_spaces s'
           | [] => [c]
           end
      else c :: collapse_spaces s'
  end.

Definition sanitize_text (s : text) : text :=
  strip (collapse_spaces (remove_newlines_tabs s)).

(** What the sanitizer promises of a string. *)
Definition starts_clean (s : text) : Prop :=
  forall c r, s = c :: r -> is_space c = false.

Definition ends_clean (s : text) : Prop :=
  forall f c, s = f ++ [c] -> is_space c = false.

Definition no_double_space (s : text) : Prop :=
  forall a b, s <> a ++ SPACE :: SPACE :: b.

Definition no_newline_tab (s : text) : Prop :=
  forall c, In c s -> c <> NEWLINE /\ c <> TAB.

(** ** Regular-expression calls on escaped patterns

    Every pattern the program compiles is [re.escape(p)] with the flag
    [re.IGNORECASE], so it matches the characters of [p] one by one, up to
    case. *)

(** The pattern matches at the start of [s]. *)
Fixpoint match_here (p s : text) : bool :=
  match p, s with
  | [], _ => true
  | _ :: _, [] => false
  | a :: p', b :: s' =>
      (lower_char a =? lower_char b)%char && match_here p' s'
  end.

(** [re.search(re.escape(p), s, re.IGNORECASE)] finds a match. *)
Fixpoint search_ci (p s : text) : bool :=
  match_here p s
  || match s with
     | [] => false
     | _ :: s' => search_ci p s'
     end.

(** A replacement string is a template: [re.sub] processes its backslash
    escapes.  With an escaped pattern there is no group but group 0. *)
Inductive tpl_item : Type :=
| Lit (c : ascii)
| Group0.

Definition is_digit (c : ascii) : bool := in_range 48 57 c.
Definition is_octdigit (c : ascii) : bool := in_range 48 55 c.
Definition is_ascii_letter (c : ascii) : bool :=
  in_range 65 90 c || in_range 97 122 c.
Definition digit_val (c : ascii) : nat := code c - 48.

(** The table [ESCAPES] of the template parser. *)
Definition escape_char (c : ascii) : option ascii :=
  if (c =? "a")%char then Some "007"%char
  else if (c =? "b")%char then Some "008"%char
  else if (c =? "f")%char then Some "012"%char
  else if (c =? "n")%char then Some "010"%char
  else if (c =? "r")%char then Some "013"%char
  else if (c =? "t")%char then Some "009"%char
  else if (c =? "v")%char then Some "011"%char
  else if (c =? BACKSLASH)%char then Some BACKSLASH
  else None.

(** The template parser of [re]; [None] is the error it raises (bad
    escape, invalid group reference, unknown group name, missing "<" or
    ">").  A group name is accepted only when it is a decimal spelling of
    0, the one group an escaped pattern has; that is the rule of Python
    3.12 and later, earlier versions also take a few other spellings of 0
    (a sign, spaces, underscores).  Outside group names the parser is the
    same in every version the program runs on. *)
Fixpoint parse_template (s : text) : option (list tpl_item) :=
  let cons_lit c r := option_map (cons (Lit c)) r in
  match s with
  | [] => Some []
  | c :: s1 =>
      if negb (c =? BACKSLASH)%char then cons_lit c (parse_template s1)
      else
        match s1 with
        | [] => None
        | e :: s2 =>
            if (e =? "g")%char then
              match s2 with
              | lt :: s3 =>
                  if (lt =? "<")%char then
                    (fix group_name (zeros nonempty : bool) (r : text)
                       {struct r} : option (list tpl_item) :=
                       match r with
                       | [] => None
                       | d :: r' =>
                           if (d =? ">")%char then
                             if zeros && nonempty
                             then option_map (cons Group0) (parse_template r')
                             else None
                           else group_name (zeros && (d =? "0")%char) true r'
                       end) true false s3
                  else None
              | [] => None
              end
            else if (e =? "0")%char then
              match s2 with
              | o1 :: s3 =>
                  if is_octdigit o1 then
                    match s3 with
                    | o2 :: s4 =>
                        if is_octdigit o2
                        then cons_lit
                               (ascii_of_nat (8 * digit_val o1 + digit_val o2))
                               (parse_template s4)
                        else cons_lit (ascii_of_nat (digit_val o1))
                               (parse_template s3)
                    | [] => Some [Lit (ascii_of_nat (digit_val o1))]
                    end
                  else cons_lit zero (parse_template s2)
              | [] => Some [Lit zero]
              end
            else if is_digit e then
              match s2 with
              | d2 :: d3 :: s4 =>
                  if is_octdigit e && is_octdigit d2 && is_octdigit d3 then
                    let v := 64 * digit_val e + 8 * digit_val d2
                             + digit_val d3 in
                    if v <=? 255 then cons_lit (ascii_of_nat v)
                                        (parse_template s4)
                    else None
                  else None
              | _ => None
              end
            else
              match escape_char e with
              | Some x => cons_lit x (parse_template s2)
              | None =>
                  if is_ascii_letter e then None
                  else option_map (fun r => Lit c :: Lit e :: r)
                         (parse_template s2)
              end
        end
  end.

(** What a parsed template stands for when the match is [m]. *)
Definition expand_template (tpl : list tpl_item) (m : text) : text :=
  flat_map (fun it => match it with Lit c => [c] | Group0 => m end) tpl.

(** Left-to-right replacement of the non-overlapping matches of [p];
    [skip] counts the characters of the current match still to pass.  The
    empty pattern matches before every character and at the end. *)
Fixpoint sub_scan (p : text) (tpl : list tpl_item) (skip : nat) (s : text)
  : text :=
  match s with
  | [] => match p with
          | [] => expand_template tpl []
          | _ :: _ => []
          end
  | c :: s' =>
      match skip with
      | S k => sub_scan p tpl k s'
      | O =>
          if match_here p s then
            match p with
            | [] => expand_template tpl [] ++ c :: sub_scan p tpl 0 s'
            | _ :: p' =>
                expand_template tpl (firstn (length p) s)
                ++ sub_scan p tpl (length p') s'
            end
          else c :: sub_scan p tpl 0 s'
      end
  end.

(** [re.sub(re.escape(p), repl, s, flags=re.IGNORECASE)]; the template is
    compiled before any matching, so a bad template raises even when the
    pattern does not occur. *)
Definition re_sub_ci (p repl s : text) : option text :=
  match parse_template repl with
  | None => None
  | Some tpl => Some (sub_scan p tpl 0 s)
  end.

(** ** Environment, files and the console *)

(** The environment variables the module reads when it is loaded.
    [REGIONS] and [VERSION] only build the path of the document, which
    [file_source] below stands for. *)
Record Env : Type := {
  REMOVE_WORD : text;
  CHANGE_PARAMETER1 : text;
  CHANGE_PARAMETER2 : text
}.

Definition REMOVE_KEYWORDS (env : Env) : text := strip (REMOVE_WORD env).
Definition CHANGE_FROM (env : Env) : text := strip (CHANGE_PARAMETER1 env).
Definition CHANGE_TO (env : Env) : text := strip (CHANGE_PARAMETER2 env).

(** What [open] finds at a path. *)
Inductive file_source (A : Type) : Type :=
| FileMissing                (* FileNotFoundError *)
| FileUnreadable             (* any other exception while reading *)
| FileContent (content : A).

Arguments FileMissing {A}.
Arguments FileUnreadable {A}.
Arguments FileContent {A} content.

(** A row as [csv.reader] yields it. *)
Definition csv_row := list text.
Definition csv_file := file_source (list csv_row).

(** What BeautifulSoup finds in the document: the text of the title tag,
    of each [h2.CountryName], and of the [li] items of each
    [ul.CountryRemark], in document order. *)
Record Document : Type := {
  title : option text;
  country_name_tags : list text;
  description_tags : list (list text)
}.

Record CountryInfo : Type := {
  name : text;
  version : text;
  iso_code : option text;
  description : text
}.

(** The lines the program prints, by the statement that prints them. *)
Inductive message : Type :=
| MsgDatabaseError
| MsgCsvNotFound
| MsgCsvError
| MsgVersionWarning
| MsgMismatch (countries iso_codes descriptions : nat)
| MsgHtmlNotFound
| MsgHtmlError
| MsgTotalCount (n : nat)
| MsgUploading
| MsgUnmatchedHeader
| MsgUnmatchedName (country : text)
| MsgSeparator
| MsgCountry (country : CountryInfo).

(** Observable events: a printed line, or a call of
    [insert_into_database]. *)
Inductive event : Type :=
| Printed (m : message)
| InsertCall (version : text) (iso_code : option text) (description : text).

(** The module-level accumulators and the trace of events so far. *)
Record World : Type := {
  country_data_list : list CountryInfo;
  unmatched_countries : list text;
  trace : list event
}.

Definition initial_world : World :=
  {| country_data_list := []; unmatched_countries := []; trace := [] |}.

Definition emit (w : World) (evs : list event) : World :=
  {| country_data_list := country_data_list w;
     unmatched_countries := unmatched_countries w;
     trace := trace w ++ evs |}.

Definition print (w : World) (m : message) : World := emit w [Printed m].

(** ** [get_iso_code] *)

(** One data row as the loop reads it; spec name: ReferenceEntry. *)
Record ReferenceEntry : Type := {
  ref_iso_code : text;
  ref_name : text
}.

(** [row[0].strip(), row[1].strip()]; [None] is the IndexError of a row
    with fewer than two fields. *)
Definition read_row (row : csv_row) : option ReferenceEntry :=
  match row with
  | c0 :: c1 :: _ => Some {| ref_iso_code := strip c0; ref_name := strip c1 |}
  | _ => None
  end.

Inductive scan_result : Type :=
| Found (iso : text)
| Exhausted
| RowError.

(** The [for row in reader] loop. *)
Fixpoint scan_rows (country_name : text) (rows : list csv_row)
  : scan_result :=
  match rows with
  | [] => Exhausted
  | row :: rest =>
      match read_row row with
      | None => RowError
      | Some e =>
          if eq_ci (ref_name e) country_name then Found (ref_iso_code e)
          else if search_ci (ref_name e) country_name
               then Found (ref_iso_code e)
               else scan_rows country_name rest
      end
  end.

(** Returns the code, or [None], and what it printed.  [next(reader)] on a
    file without a header raises StopIteration, caught like any other
    exception. *)
Definition get_iso_code (csv : csv_file) (country_name : text)
  : option text * list message :=
  match csv with
  | FileMissing => (None, [MsgCsvNotFound])
  | FileUnreadable => (None, [MsgCsvError])
  | FileContent [] => (None, [MsgCsvError])
  | FileContent (_header :: rows) =>
      match scan_rows country_name rows with
      | Found iso => (Some iso, [])
      | Exhausted => (None, [])
      | RowError => (None, [MsgCsvError])
      end
  end.

(** ** [extract_descriptions] *)

(** The [for keyword in ...] loop; [None] when [re.sub] raises. *)
Fixpoint remove_keywords (keywords : list text) (desc : text)
  : option text :=
  match keywords with
  | [] => Some desc
  | keyword :: rest =>
      match re_sub_ci keyword [] desc with
      | None => None
      | Some desc' => remove_keywords rest desc'
      end
  end.

(** The [for from_term, to_term in replacements] loop. *)
Fixpoint apply_replacements (replacements : list (text * text))
  (desc : text) : option text :=
  match replacements with
  | [] => Some desc
  | (from_term, to_term) :: rest =>
      match re_sub_ci from_term to_term desc with
      | None => None
      | Some desc' => apply_replacements rest desc'
      end
  end.

(** The rewrite step of one item: removals, then replacements. *)
Definition rewrite (keywords : list text) (replacements : list (text * text))
  (desc : text) : option text :=
  match remove_keywords keywords desc with
  | None => None
  | Some desc' => apply_replacements replacements desc'
  end.

(** [REMOVE_KEYWORDS.split(",")] under [if REMOVE_KEYWORDS:]. *)
Definition keyword_list (env : Env) : list text :=
  match REMOVE_KEYWORDS env with
  | [] => []
  | _ :: _ => split_on COMMA (REMOVE_KEYWORDS env)
  end.

(** [zip(from_terms, to_terms)] under [if CHANGE_FROM and CHANGE_TO:]. *)
Definition pair_terms (change_from change_to : text) : list (text * text) :=
  match change_from, change_to with
  | _ :: _, _ :: _ =>
      combine (split_on COMMA change_from) (split_on COMMA change_to)
  | _, _ => []
  end.

Definition replacement_list (env : Env) : list (text * text) :=
  pair_terms (CHANGE_FROM env) (CHANGE_TO env).

Definition clean_item (env : Env) (li : text) : option text :=
  rewrite (keyword_list env) (replacement_list env) (sanitize_text li).

Fixpoint extract_descriptions (env : Env) (list_items : list text)
  : option (list text) :=
  match list_items with
  | [] => Some []
  | li :: rest =>
      match clean_item env li with
      | None => None
      | Some desc =>
          match extract_descriptions env rest with
          | None => None
          | Some descs => Some (desc :: descs)
          end
      end
  end.

(** ** [parse_html_file] *)

Definition UNKNOWN : text := str "Unknown".
Definition GENERAL : text := str "general".

Definition data_source_version (doc : Document) : text * list message :=
  match title doc with
  | Some t =>
      match split_ws t with
      | _ :: _ :: v :: _ => (v, [])
      | _ => (UNKNOWN, [MsgVersionWarning])
      end
  | None => (UNKNOWN, [MsgVersionWarning])
  end.

(** [[extract_descriptions(ul_tag) for ul_tag in description_tags]] *)
Fixpoint all_descriptions (env : Env) (uls : list (list text))
  : option (list (list text)) :=
  match uls with
  | [] => Some []
  | ul :: rest =>
      match extract_descriptions env ul with
      | None => None
      | Some d =>
          match all_descriptions env rest with
          | None => None
          | Some ds => Some (d :: ds)
          end
      end
  end.

(** The two [pop(0)] under the "general" test; [None] is the IndexError
    of [descriptions.pop(0)] on an empty list. *)
Definition drop_general (country_names : list text)
  (descriptions : list (list text))
  : option (list text * list (list text)) :=
  match country_names with
  | first :: rest =>
      if text_eqb (lower first) GENERAL then
        match descriptions with
        | _ :: drest => Some (rest, drest)
        | [] => None
        end
      else Some (country_names, descriptions)
  | [] => Some (country_names, descriptions)
  end.

Definition add_unmatched (w : World) (country : text) : World :=
  {| country_data_list := country_data_list w;
     unmatched_countries := unmatched_countries w ++ [country];
     trace := trace w |}.

Definition add_country (w : World) (c : CountryInfo) : World :=
  {| country_data_list := country_data_list w ++ [c];
     unmatched_countries := unmatched_countries w;
     trace := trace w |}.

(** The [for name in country_names] loop. *)
Fixpoint match_iso_codes (csv : csv_file) (country_names : list text)
  (w : World) : list (option text) * World :=
  match country_names with
  | [] => ([], w)
  | country :: rest =>
      let (iso, msgs) := get_iso_code csv country in
      let w1 := emit w (map Printed msgs) in
      let w2 := match iso with
                | None => add_unmatched w1 country
                | Some _ => w1
                end in
      let (isos, w3) := match_iso_codes csv rest w2 in
      (iso :: isos, w3)
  end.

Fixpoint zip3 {A B C : Type} (la : list A) (lb : list B) (lc : list C)
  : list (A * B * C) :=
  match la, lb, lc with
  | a :: la', b :: lb', c :: lc' => (a, b, c) :: zip3 la' lb' lc'
  | _, _, _ => []
  end.

Definition make_country (v : text) (x : text * option text * list text)
  : CountryInfo :=
  let '(n, iso, desc) := x in
  {| name := n; version := v; iso_code := iso;
     description := join [NEWLINE] desc |}.

Definition parse_html_file (env : Env) (csv : csv_file)
  (html : file_source Document) (w : World) : World :=
  match html with
  | FileMissing => print w MsgHtmlNotFound
  | FileUnreadable => print w MsgHtmlError
  | FileContent doc =>
      let (v, warnings) := data_source_version doc in
      let w := emit w (map Printed warnings) in
      let country_names := map sanitize_text (country_name_tags doc) in
      match all_descriptions env (description_tags doc) with
      | None => print w MsgHtmlError
      | Some descriptions =>
          match drop_general country_names descriptions with
          | None => print w MsgHtmlError
          | Some (country_names, descriptions) =>
              let (iso_codes, w) := match_iso_codes csv country_names w in
              if (length country_names =? length iso_codes)
                 && (length iso_codes =? length descriptions)
              then fold_left add_country
                     (map (make_country v)
                        (zip3 country_names iso_codes descriptions)) w
              else print w (MsgMismatch (length country_names)
                              (length iso_codes) (length descriptions))
          end
      end
  end.

(** ** [insert_into_database], [upload_data_to_db], [main] *)

(** How the database answers one call. *)
Inductive db_outcome : Type :=
| DbStored         (* connect, execute and commit succeed *)
| DbQueryFails     (* connected; execute or commit raises a MySQL error *)
| DbConnectFails.  (* [mysql.connector.connect] raises a MySQL error *)

(** The database, by call number. *)
Definition database := nat -> db_outcome.

Inductive completion : Type :=
| Returned
| Raised.   (* an exception left the function *)

(** The MySQL error is caught and printed in both failing cases.  When
    [connect] itself raised, the local [connection] was never bound, and
    the [finally] clause's [connection.is_connected()] raises
    UnboundLocalError, which nothing catches. *)
Definition insert_into_database (answer : db_outcome)
  (v : text) (iso : option text) (d : text) (w : World)
  : World * completion :=
  let w := emit w [InsertCall v iso d] in
  match answer with
  | DbStored => (w, Returned)
  | DbQueryFails => (print w MsgDatabaseError, Returned)
  | DbConnectFails => (print w MsgDatabaseError, Raised)
  end.

(** The loop of [upload_data_to_db]; [n] numbers the calls. *)
Fixpoint upload_loop (db : database) (n : nat) (countries : list CountryInfo)
  (w : World) : World * completion :=
  match countries with
  | [] => (w, Returned)
  | country :: rest =>
      match insert_into_database (db n) (version country) (iso_code country)
              (description country) w with
      | (w', Returned) => upload_loop db (S n) rest w'
      | (w', Raised) => (w', Raised)
      end
  end.

Definition upload_data_to_db (db : database) (w : World)
  : World * completion :=
  upload_loop db 0 (country_data_list w) w.

Definition display_all_countries (w : World) : World :=
  let w := print w MsgSeparator in
  let w := emit w (flat_map
                     (fun c => [Printed MsgSeparator; Printed (MsgCountry c)])
                     (country_data_list w)) in
  print w MsgSeparator.

(** [main] after [parse_html_file()]: [w] is the extraction outcome. *)
Definition orchestrate (db : database) (w : World) : World * completion :=
  let w := print w (MsgTotalCount (length (country_data_list w))) in
  match unmatched_countries w with
  | [] =>
      let w := print w MsgUploading in
      match upload_data_to_db db w with
      | (w', Returned) => (display_all_countries w', Returned)
      | (w', Raised) => (w', Raised)
      end
  | _ :: _ =>
      let w := print w MsgUnmatchedHeader in
      let w := emit w (map (fun c => Printed (MsgUnmatchedName c))
                         (unmatched_countries w)) in
      (display_all_countries w, Returned)
  end.

Definition main (env : Env) (csv : csv_file) (html : file_source Document)
  (db : database) : World * completion :=
  orchestrate db (parse_html_file env csv html initial_world).

(** ** Observations on a trace *)

(** The records handed to [insert_into_database], in call order. *)
Fixpoint insert_calls (tr : list event)
  : list (text * option text * text) :=
  match tr with
  | [] => []
  | InsertCall v iso d :: tr' => (v, iso, d) :: insert_calls tr'
  | Printed _ :: tr' => insert_calls tr'
  end.

(** The unmatched names reported, in print order. *)
Fixpoint reported_names (tr : list event) : list text :=
  match tr with
  | [] => []
  | Printed (MsgUnmatchedName c) :: tr' => c :: reported_names tr'
  | _ :: tr' => reported_names tr'
  end.

(** The records listed by [display_all_countries], in print order. *)
Fixpoint listed_countries (tr : list event) : list CountryInfo :=
  match tr with
  | [] => []
  | Printed (MsgCountry c) :: tr' => c :: listed_countries tr'
  | _ :: tr' => listed_countries tr'
  end.

Definition upsert_args (c : CountryInfo) : text * option text * text :=
  (version c, iso_code c, description c).

(** ** The resolver as the specification words it *)

Definition row_ok (row : csv_row) : bool := 2 <=? length row.

(** Every data row has its two fields. *)
Definition rows_well_formed (rows : list csv_row) : bool :=
  forallb row_ok rows.

(** The reference table: the entries of the data rows, in file order, up
    to the first row that cannot be read. *)
Fixpoint reference_table (rows : list csv_row) : list ReferenceEntry :=
  match rows with
  | [] => []
  | row :: rest =>
      match read_row row with
      | Some e => e :: reference_table rest
      | None => []
      end
  end.

(** Exact test first, substring test second. *)
Definition entry_matches (raw_name : text) (e : ReferenceEntry) : bool :=
  eq_ci (ref_name e) raw_name || search_ci (ref_name e) raw_name.

(** The code of the first entry, in stored order, that passes a test. *)
Definition resolve (raw_name : text) (table : list ReferenceEntry)
  : option text :=
  option_map ref_iso_code (find (entry_matches raw_name) table).

(** ** The rewrite step as the specification words it *)

(** Every occurrence of [from_term], up to case, replaced by the literal
    string [to_term]. *)
Definition replace_literal (from_term to_term s : text) : text :=
  sub_scan from_term (map Lit to_term) 0 s.

Definition rewrite_literal (keywords : list text)
  (substitutions : list (text * text)) (s : text) : text :=
  fold_left (fun d p => replace_literal (fst p) (snd p) d) substitutions
    (fold_left (fun d k => replace_literal k [] d) keywords s).

Definition no_backslash (s : text) : Prop := ~ In BACKSLASH s.

(** ** Conditions on the surroundings *)


(** Messages that only [main] prints after the pass. *)
Definition is_report (m : message) : bool :=
  match m with
  | MsgUnmatchedName _ | MsgCountry _ => true
  | _ => false
  end.

(** The database can be reached for each of the first [n] calls. *)
Definition reachable (db : database) (n : nat) : Prop :=
  forall i, i < n -> db i <> DbConnectFails.

(** ** Sample inputs *)

Definition sample_csv_rows : list csv_row :=
  [ [str "AR"; str " Argentina "];
    [str "BR"; str "Brazil"; str "South America"] ].

Definition sample_header : csv_row := [str "iso"; str "name"].

Definition no_rules : Env :=
  {| REMOVE_WORD := []; CHANGE_PARAMETER1 := []; CHANGE_PARAMETER2 := [] |}.

Definition sample_csv : csv_file :=
  FileContent (sample_header :: sample_csv_rows).

Definition doc_three_two : Document :=
  {| title := Some (str "Release Notes 2024.03");
     country_name_tags := [str "Argentina"; str "Brazil"; str "Chile"];
     description_tags := [[str "roads"]; [str "speed limits"]] |}.

Definition doc_general : Document :=
  {| title := Some (str "Release Notes 2024.03");
     country_name_tags := [str " General "; str "Argentina"; str "Brazil"];
     description_tags :=
       [[str "preamble"]; [str "roads"; str "addresses"];
        [str "speed  limits"]] |}.

Definition doc_general_twice : Document :=
  {| title := Some (str "Release Notes 2024.03");
     country_name_tags := [str "General"; str "General"];
     description_tags := [[str "preamble"]; [str "more"]] |}.

Definition db_up : database := fun _ => DbStored.
Definition db_unreachable : database := fun _ => DbConnectFails.

Definition csv_without_brazil : csv_file :=
  FileContent [sample_header; [str "AR"; str "Argentina"]].

(** ** Further notions used in the statements *)

(** A string the sanitizer has nothing to do on. *)
Definition sanitized (s : text) : Prop :=
  no_newline_tab s /\ no_double_space s /\ starts_clean s /\ ends_clean s.

(** Characters that are no white space. *)
Definition visible (c : ascii) : bool := negb (is_space c).

(** A record without ISO code. *)
Definition no_code (c : CountryInfo) : bool :=
  match iso_code c with
  | None => true
  | Some _ => false
  end.

(** A name that [get_iso_code] does not resolve. *)
Definition unresolved (csv : csv_file) (n : text) : bool :=
  match fst (get_iso_code csv n) with
  | None => true
  | Some _ => false
  end.

(** The first of the calls numbered [n], [n+1], ..., [n+len-1] at which
    the database cannot be reached, counted from [n]. *)
Fixpoint first_connect_failure (db : database) (n len : nat) : option nat :=
  match len with
  | O => None
  | S len' =>
      match db n with
      | DbConnectFails => Some 0
      | _ => option_map S (first_connect_failure db (S n) len')
      end
  end.

(** How many records the upload loop hands over out of [len]. *)
Definition calls_made (db : database) (len : nat) : nat :=
  match first_connect_failure db 0 len with
  | Some i => S i
  | None => len
  end.

(** The "Database Error" lines of a trace. *)
Fixpoint database_errors (tr : list event) : nat :=
  match tr with
  | [] => 0
  | Printed MsgDatabaseError :: tr' => S (database_errors tr')
  | _ :: tr' => database_errors tr'
  end.

(** Among the calls [n], ..., [n+k-1], those the database did not store. *)
Fixpoint failed_calls (db : database) (n k : nat) : nat :=
  match k with
  | O => 0
  | S k' =>
      match db n with
      | DbStored => failed_calls db (S n) k'
      | _ => S (failed_calls db (S n) k')
      end
  end.

Definition bad_template_rules : Env :=
  {| REMOVE_WORD := str "Foo"; CHANGE_PARAMETER1 := str "km";
     CHANGE_PARAMETER2 := str "\1" |}.

Definition km_to_mi_rules : Env :=
  {| REMOVE_WORD := str "new,"; CHANGE_PARAMETER1 := str "km,ft";
     CHANGE_PARAMETER2 := str "mi" |}.

(** The template holds a backslash followed by "g", the start of a group
    name. *)
Fixpoint has_group_name (t : text) : bool :=
  match t with
  | [] => false
  | c :: t' =>
      match t' with
      | d :: _ =>
          ((c =? BACKSLASH)%char && (d =? "g")%char) || has_group_name t'
      | [] => false
      end
  end.


(** * Properties *)

(** ** Sanitizer *)

Section Sanitizer.

Lemma lstrip_suffix (s : text) : exists a, s = a ++ lstrip s.
Proof.
  induction s as [|c s IH]; simpl.
  - exists []. reflexivity.
  - destruct (is_space c).
    + destruct IH as [a Ha]. exists (c :: a). simpl. now rewrite <- Ha.
    + exists []. reflexivity.
Qed.

Lemma rstrip_prefix (s : text) : exists b, s = rstrip s ++ b.
Proof.
  unfold rstrip. destruct (lstrip_suffix (rev s)) as [a Ha].
  exists (rev a). rewrite <- rev_app_distr, <- Ha. now rewrite rev_involutive.
Qed.

Lemma strip_infix (s : text) : exists a b, s = a ++ strip s ++ b.
Proof.
  unfold strip. destruct (lstrip_suffix s) as [a Ha].
  destruct (rstrip_prefix (lstrip s)) as [b Hb].
  exists a, b. now rewrite <- Hb.
Qed.

Lemma lstrip_starts_clean (s : text) : starts_clean (lstrip s).
Proof.
  induction s as [|c s IH]; intros x r H; simpl in H.
  - discriminate.
  - destruct (is_space c) eqn:E.
    + exact (IH x r H).
    + injection H as -> _. exact E.
Qed.

Lemma rstrip_ends_clean (s : text) : ends_clean (rstrip s).
Proof.
  intros f c H. unfold rstrip in H.
  apply (f_equal (@rev ascii)) in H.
  rewrite rev_involutive, rev_app_distr in H. simpl in H.
  exact (lstrip_starts_clean (rev s) H).
Qed.

Lemma strip_starts_clean (s : text) : starts_clean (strip s).
Proof.
  intros c r H. unfold strip in *.
  destruct (rstrip_prefix (lstrip s)) as [b Hb].
  rewrite H in Hb. simpl in Hb.
  exact (lstrip_starts_clean s Hb).
Qed.

Lemma strip_ends_clean (s : text) : ends_clean (strip s).
Proof. unfold strip. apply rstrip_ends_clean. Qed.

Lemma lstrip_fixed (s : text) : starts_clean s -> lstrip s = s.
Proof.
  destruct s as [|c s]; intros H; simpl; [reflexivity|].
  now rewrite (H c s eq_refl).
Qed.

Lemma rstrip_fixed (s : text) : ends_clean s -> rstrip s = s.
Proof.
  intros H. unfold rstrip. rewrite lstrip_fixed.
  - apply rev_involutive.
  - intros c r E. apply (H (rev r) c).
    apply (f_equal (@rev ascii)) in E. rewrite rev_involutive in E.
    exact E.
Qed.

Lemma strip_fixed (s : text) : starts_clean s -> ends_clean s -> strip s = s.
Proof.
  intros Hs He. unfold strip. rewrite (lstrip_fixed Hs).
  now apply rstrip_fixed.
Qed.

Lemma collapse_spaces_cons (c : ascii) (s : text) :
  collapse_spaces (c :: s) =
  if Ascii.eqb c SPACE
  then match s with
       | c' :: _ =>
           if Ascii.eqb c' SPACE then collapse_spaces s
           else c :: collapse_spaces s
       | [] => [c]
       end
  else c :: collapse_spaces s.
Proof. reflexivity. Qed.

Lemma collapse_spaces_head (s : text) :
  hd_error (collapse_spaces s) = hd_error s.
Proof.
  induction s as [|c s IH]; [reflexivity|].
  rewrite collapse_spaces_cons.
  destruct (Ascii.eqb c SPACE) eqn:E; [|reflexivity].
  destruct s as [|c' s']; [reflexivity|].
  destruct (Ascii.eqb c' SPACE) eqn:E'; [|reflexivity].
  rewrite IH. simpl. apply Ascii.eqb_eq in E, E'. congruence.
Qed.

Lemma collapse_spaces_no_double (s : text) :
  no_double_space (collapse_spaces s).
Proof.
  induction s as [|c s IH]; intros a b H.
  - destruct a; discriminate.
  - rewrite collapse_spaces_cons in H.
    destruct (Ascii.eqb c SPACE) eqn:E.
    + destruct s as [|c' s'].
      * destruct a as [|x [|y a]]; discriminate.
      * destruct (Ascii.eqb c' SPACE) eqn:E'.
        -- exact (IH a b H).
        -- destruct a as [|x a]; injection H as _ H.
           ++ rewrite E' in H. injection H as Hc _.
              apply Ascii.eqb_neq in E'. congruence.
           ++ exact (IH a b H).
    + destruct a as [|x a]; injection H as Hc H.
      * apply Ascii.eqb_neq in E. congruence.
      * exact (IH a b H).
Qed.

Lemma collapse_spaces_In (s : text) (c : ascii) :
  In c (collapse_spaces s) -> In c s.
Proof.
  induction s as [|x s IH]; [simpl; tauto|].
  rewrite collapse_spaces_cons.
  destruct (Ascii.eqb x SPACE).
  - destruct s as [|c' s'].
    + simpl. tauto.
    + destruct (Ascii.eqb c' SPACE).
      * intros H. right. exact (IH H).
      * intros [H|H]; [now left | right; exact (IH H)].
  - intros [H|H]; [now left | right; exact (IH H)].
Qed.

Lemma collapse_spaces_fixed (s : text) :
  no_double_space s -> collapse_spaces s = s.
Proof.
  induction s as [|c s IH]; intros H; [reflexivity|].
  assert (Hs : no_double_space s).
  { intros a b E. apply (H (c :: a) b). simpl. now rewrite E. }
  rewrite collapse_spaces_cons.
  destruct (Ascii.eqb c SPACE) eqn:E.
  - destruct s as [|c' s']; [reflexivity|].
    destruct (Ascii.eqb c' SPACE) eqn:E'.
    + apply Ascii.eqb_eq in E, E'. subst. exfalso.
      exact (H [] s' eq_refl).
    + now rewrite (IH Hs).
  - now rewrite (IH Hs).
Qed.

Lemma strip_In (s : text) (c : ascii) : In c (strip s) -> In c s.
Proof.
  intros H. destruct (strip_infix s) as (a & b & E). rewrite E.
  apply in_or_app. right. apply in_or_app. now left.
Qed.

Lemma remove_newlines_tabs_clean (s : text) :
  no_newline_tab (remove_newlines_tabs s).
Proof.
  intros c H. unfold remove_newlines_tabs in H.
  apply filter_In in H. destruct H as [_ H].
  unfold is_newline_or_tab in H.
  apply negb_true_iff, orb_false_iff in H. destruct H as [H1 H2].
  apply Ascii.eqb_neq in H1, H2. now split.
Qed.

Lemma remove_newlines_tabs_fixed (s : text) :
  no_newline_tab s -> remove_newlines_tabs s = s.
Proof.
  induction s as [|c s IH]; intros H; simpl; [reflexivity|].
  destruct (H c (or_introl eq_refl)) as [H1 H2].
  unfold is_newline_or_tab.
  apply Ascii.eqb_neq in H1, H2. rewrite H1, H2. simpl.
  f_equal. apply IH. intros x Hx. apply H. now right.
Qed.

Lemma strip_no_double (s : text) :
  no_double_space s -> no_double_space (strip s).
Proof.
  intros H a b E. destruct (strip_infix s) as (p & q & Es).
  apply (H (p ++ a) (b ++ q)). rewrite Es, E.
  now rewrite <- !app_assoc.
Qed.

Lemma sanitize_no_newline_tab (x : text) : no_newline_tab (sanitize_text x).
Proof.
  intros c H. unfold sanitize_text in H.
  apply strip_In, collapse_spaces_In in H.
  eapply remove_newlines_tabs_clean; eassumption.
Qed.

Lemma sanitize_no_double_space (x : text) :
  no_double_space (sanitize_text x).
Proof. apply strip_no_double, collapse_spaces_no_double. Qed.

Example sanitize_text_costa_rica :
  sanitize_text (str "  Costa   Rica ") = str "Costa Rica".
Proof. vm_compute. reflexivity. Qed.

(** C7. [sanitize_text] is a total function on strings (it has no
    failing case), and for every input its result holds no newline and
    no tab, no two consecutive spaces, and neither starts nor ends with
    a white-space character. *)
Theorem sanitize_text_output_clean (x : text) :
  (exists y, sanitize_text x = y)
  /\ no_newline_tab (sanitize_text x)
  /\ no_double_space (sanitize_text x)
  /\ starts_clean (sanitize_text x)
  /\ ends_clean (sanitize_text x).
Proof.
  split; [eexists; reflexivity|].
  split; [apply sanitize_no_newline_tab|].
  split; [apply sanitize_no_double_space|].
  split; [apply strip_starts_clean | apply strip_ends_clean].
Qed.

(** C8. [sanitize_text] is idempotent:
    [sanitize_text (sanitize_text x) = sanitize_text x] for every [x]. *)
Theorem sanitize_text_idempotent (x : text) :
  sanitize_text (sanitize_text x) = sanitize_text x.
Proof.
  unfold sanitize_text at 1.
  rewrite (remove_newlines_tabs_fixed (sanitize_no_newline_tab x)).
  rewrite (collapse_spaces_fixed (sanitize_no_double_space x)).
  apply strip_fixed; [apply strip_starts_clean | apply strip_ends_clean].
Qed.

End Sanitizer.

(** ** Name resolver *)

Section Resolver.

Variable raw_name : text.

Lemma match_here_nil (s : text) : match_here [] s = true.
Proof. destruct s; reflexivity. Qed.

Lemma search_ci_nil (s : text) : search_ci [] s = true.
Proof. destruct s; reflexivity. Qed.

Lemma read_row_ok (row : csv_row) :
  row_ok row = true -> exists e, read_row row = Some e.
Proof.
  destruct row as [|c0 [|c1 r]]; simpl; try discriminate.
  intros _. eexists. reflexivity.
Qed.

Lemma read_row_some (row : csv_row) (e : ReferenceEntry) :
  read_row row = Some e -> row_ok row = true.
Proof. destruct row as [|c0 [|c1 r]]; simpl; try discriminate. reflexivity. Qed.

(** One step of the loop, in terms of [entry_matches]. *)
Lemma scan_rows_cons (row : csv_row) (rest : list csv_row) :
  scan_rows raw_name (row :: rest) =
  match read_row row with
  | None => RowError
  | Some e => if entry_matches raw_name e then Found (ref_iso_code e)
              else scan_rows raw_name rest
  end.
Proof.
  simpl. destruct (read_row row) as [e|]; [|reflexivity].
  unfold entry_matches.
  destruct (eq_ci (ref_name e) raw_name); [reflexivity|].
  destruct (search_ci (ref_name e) raw_name); reflexivity.
Qed.

(** The loop finds the first matching entry of the readable rows; if
    there is none it ends normally exactly when every row was readable. *)
Lemma scan_rows_spec (rows : list csv_row) :
  scan_rows raw_name rows =
  match find (entry_matches raw_name) (reference_table rows) with
  | Some e => Found (ref_iso_code e)
  | None => if rows_well_formed rows then Exhausted else RowError
  end.
Proof.
  induction rows as [|row rest IH]; [reflexivity|].
  rewrite scan_rows_cons. simpl.
  destruct (read_row row) as [e|] eqn:E.
  - rewrite (read_row_some _ E). simpl.
    destruct (entry_matches raw_name e); [reflexivity | exact IH].
  - simpl. destruct (row_ok row) eqn:R; [|reflexivity].
    destruct (read_row_ok _ R) as [e He]. congruence.
Qed.

Lemma scan_rows_app (pre rest : list csv_row) :
  scan_rows raw_name (pre ++ rest) =
  match scan_rows raw_name pre with
  | Exhausted => scan_rows raw_name rest
  | r => r
  end.
Proof.
  induction pre as [|row pre IH]; [reflexivity|].
  rewrite <- app_comm_cons, !scan_rows_cons.
  destruct (read_row row) as [e|]; [|reflexivity].
  destruct (entry_matches raw_name e); [reflexivity | exact IH].
Qed.

Lemma find_none_all (table : list ReferenceEntry) :
  (forall e, In e table -> entry_matches raw_name e = false) ->
  find (entry_matches raw_name) table = None.
Proof.
  induction table as [|e t IH]; intros H; [reflexivity|]. simpl.
  rewrite (H e (or_introl eq_refl)). apply IH. intros x Hx. apply H. now right.
Qed.

Lemma find_first_split (table : list ReferenceEntry) (e : ReferenceEntry) :
  find (entry_matches raw_name) table = Some e ->
  exists before after,
    table = before ++ e :: after
    /\ entry_matches raw_name e = true
    /\ forall e', In e' before -> entry_matches raw_name e' = false.
Proof.
  induction table as [|x t IH]; [discriminate|]. simpl.
  destruct (entry_matches raw_name x) eqn:M.
  - intros F. injection F as F. subst x.
    exists [], t. split; [reflexivity|]. split; [exact M|].
    intros e' [].
  - intros F. destruct (IH F) as (b & a & Ht & Hm & Hb).
    exists (x :: b), a. split; [now rewrite Ht|]. split; [exact Hm|].
    intros e' [He'|He']; [now subst e' | now apply Hb].
Qed.

(** C2. On a table whose data rows all have their two fields,
    [get_iso_code] returns the ISO code of the first entry, in stored
    order, whose name equals the raw name up to case or occurs in it up to
    case (the equality test tried first at each entry, both giving that
    entry's code); every entry before the chosen one fails both tests, and
    when no entry passes a test the result is absent. *)
Theorem get_iso_code_first_match (header : csv_row) (rows : list csv_row)
  (Hwf : rows_well_formed rows = true) :
  let result := fst (get_iso_code (FileContent (header :: rows)) raw_name) in
  let table := reference_table rows in
  result = resolve raw_name table
  /\ (forall iso, result = Some iso ->
        exists before e after,
          table = before ++ e :: after
          /\ iso = ref_iso_code e
          /\ (eq_ci (ref_name e) raw_name = true
              \/ search_ci (ref_name e) raw_name = true)
          /\ forall e', In e' before ->
               eq_ci (ref_name e') raw_name = false
               /\ search_ci (ref_name e') raw_name = false)
  /\ ((forall e, In e table ->
         eq_ci (ref_name e) raw_name = false
         /\ search_ci (ref_name e) raw_name = false) ->
      result = None).
Proof.
  intros result table.
  assert (R : result = resolve raw_name table).
  { unfold result, resolve, table. simpl. rewrite scan_rows_spec, Hwf.
    destruct (find _ _); reflexivity. }
  split; [exact R|]. split.
  - intros iso Hiso. rewrite R in Hiso. unfold resolve in Hiso.
    destruct (find (entry_matches raw_name) table) as [e|] eqn:F;
      [|discriminate].
    injection Hiso as Hiso.
    destruct (find_first_split _ F) as (b & a & Ht & Hm & Hb).
    exists b, e, a. split; [exact Ht|]. split; [now symmetry|].
    split; [now apply orb_true_iff in Hm|].
    intros e' He'. apply orb_false_iff. now apply Hb.
  - intros Hnone. rewrite R. unfold resolve.
    rewrite find_none_all; [reflexivity|].
    intros e He. destruct (Hnone e He) as [H1 H2].
    unfold entry_matches. now rewrite H1, H2.
Qed.

Lemma empty_name_matches (e : ReferenceEntry) :
  ref_name e = [] -> entry_matches raw_name e = true.
Proof.
  intros H. unfold entry_matches. rewrite H, search_ci_nil.
  apply orb_true_r.
Qed.

Lemma get_iso_code_rows (header : csv_row) (rows : list csv_row) :
  fst (get_iso_code (FileContent (header :: rows)) raw_name) =
  match scan_rows raw_name rows with
  | Found iso => Some iso
  | _ => None
  end.
Proof. simpl. destruct (scan_rows raw_name rows); reflexivity. Qed.

(** C9. An entry whose (stripped) name is the empty string passes the
    substring test for every raw name: once the scan reaches it (no
    earlier row matched or failed to read) the resolver returns its code,
    whatever rows follow; with readable rows before it the result is never
    absent.  So on a readable table, a name can resolve to absent only if
    every name in the table is non-empty. *)
Theorem empty_name_entry_shadows (header : csv_row)
  (pre : list csv_row) (row : csv_row) (post : list csv_row)
  (e : ReferenceEntry)
  (Hrow : read_row row = Some e) (Hempty : ref_name e = []) :
  let result :=
    fst (get_iso_code (FileContent (header :: pre ++ row :: post)) raw_name) in
  (scan_rows raw_name pre = Exhausted -> result = Some (ref_iso_code e))
  /\ (rows_well_formed pre = true ->
      result = Some (match find (entry_matches raw_name)
                             (reference_table pre) with
                     | Some e' => ref_iso_code e'
                     | None => ref_iso_code e
                     end))
  /\ (forall rows,
        rows_well_formed rows = true ->
        fst (get_iso_code (FileContent (header :: rows)) raw_name) = None ->
        forall e', In e' (reference_table rows) -> ref_name e' <> []).
Proof.
  intros result.
  assert (Hhere : scan_rows raw_name (row :: post) = Found (ref_iso_code e)).
  { rewrite scan_rows_cons, Hrow. now rewrite (empty_name_matches _ Hempty). }
  assert (R : result =
              match scan_rows raw_name pre with
              | Found iso => Some iso
              | Exhausted => Some (ref_iso_code e)
              | RowError => None
              end).
  { unfold result. rewrite get_iso_code_rows, scan_rows_app.
    destruct (scan_rows raw_name pre); try reflexivity. now rewrite Hhere. }
  split; [|split].
  - intros H. now rewrite R, H.
  - intros Hwf. rewrite R, scan_rows_spec, Hwf.
    destruct (find _ _); reflexivity.
  - intros rows Hwf Hnone e' He' Hname.
    rewrite get_iso_code_rows, scan_rows_spec, Hwf in Hnone.
    destruct (find (entry_matches raw_name) (reference_table rows)) eqn:F;
      [discriminate|].
    pose proof (find_none _ _ F e' He') as M.
    rewrite (empty_name_matches _ Hname) in M. discriminate.
Qed.

End Resolver.

(** Witness of C2: "brazil (south)" resolves to BR, past Argentina. *)
Lemma get_iso_code_first_match_witness :
  rows_well_formed sample_csv_rows = true
  /\ fst (get_iso_code
            (FileContent ([str "iso"; str "name"] :: sample_csv_rows))
            (str "brazil (south)"))
     = resolve (str "brazil (south)") (reference_table sample_csv_rows)
  /\ resolve (str "brazil (south)") (reference_table sample_csv_rows)
     = Some (str "BR").
Proof.
  split; [reflexivity|]. split; [|reflexivity].
  exact (proj1 (@get_iso_code_first_match (str "brazil (south)")
                  [str "iso"; str "name"] sample_csv_rows eq_refl)).
Defined.

(** Witness of C9: a blank name in the second row catches "Atlantis" and
    hides the Brazil row behind it. *)
Lemma empty_name_entry_shadows_witness :
  fst (get_iso_code
         (FileContent ([str "iso"; str "name"]
                       :: [[str "AR"; str "Argentina"]]
                          ++ [str "XX"; str "  "]
                             :: [[str "BR"; str "Brazil"]]))
         (str "Atlantis"))
  = Some (str "XX").
Proof.
  exact (proj1 (@empty_name_entry_shadows (str "Atlantis")
                  [str "iso"; str "name"] [[str "AR"; str "Argentina"]]
                  [str "XX"; str "  "] [[str "BR"; str "Brazil"]]
                  {| ref_iso_code := str "XX"; ref_name := [] |}
                  eq_refl eq_refl) eq_refl).
Defined.

(** ** Rewrite step *)

Section Rewrite.

Lemma parse_template_literal (repl : text) :
  no_backslash repl -> parse_template repl = Some (map Lit repl).
Proof.
  induction repl as [|c r IH]; intros H; [reflexivity|].
  assert (Hc : Ascii.eqb c BACKSLASH = false).
  { apply Ascii.eqb_neq. intros ->. apply H. now left. }
  assert (Hr : no_backslash r) by (intros X; apply H; now right).
  cbn [parse_template]. rewrite Hc. cbn [negb].
  rewrite (IH Hr). reflexivity.
Qed.

Lemma re_sub_ci_literal (p repl s : text) :
  no_backslash repl -> re_sub_ci p repl s = Some (replace_literal p repl s).
Proof.
  intros H. unfold re_sub_ci. now rewrite (parse_template_literal H).
Qed.

Lemma remove_keywords_total (keywords : list text) (desc : text) :
  remove_keywords keywords desc
  = Some (fold_left (fun d k => replace_literal k [] d) keywords desc).
Proof.
  revert desc. induction keywords as [|k ks IH]; intros desc; [reflexivity|].
  simpl. unfold re_sub_ci. simpl. apply IH.
Qed.

Lemma apply_replacements_literal (subs : list (text * text)) (desc : text) :
  (forall p, In p subs -> no_backslash (snd p)) ->
  apply_replacements subs desc
  = Some (fold_left (fun d p => replace_literal (fst p) (snd p) d) subs desc).
Proof.
  revert desc. induction subs as [|[f t] subs IH]; intros desc H;
    [reflexivity|].
  simpl. rewrite re_sub_ci_literal.
  - apply IH. intros p Hp. apply H. now right.
  - exact (H (f, t) (or_introl eq_refl)).
Qed.

(** Removals run first, replacements second, and with to-terms free of
    backslashes every replacement is the literal one. *)
Lemma rewrite_is_literal (keywords : list text) (subs : list (text * text))
  (desc : text) :
  (forall p, In p subs -> no_backslash (snd p)) ->
  rewrite keywords subs desc = Some (rewrite_literal keywords subs desc).
Proof.
  intros H. unfold rewrite, rewrite_literal.
  rewrite remove_keywords_total. now apply apply_replacements_literal.
Qed.

Lemma rewrite_no_rules (desc : text) : rewrite [] [] desc = Some desc.
Proof. reflexivity. Qed.

Example re_sub_ci_non_overlapping :
  re_sub_ci (str "aa") (str "b") (str "aAaaa") = Some (str "bba").
Proof. vm_compute. reflexivity. Qed.

Example re_sub_ci_empty_pattern :
  re_sub_ci [] (str "-") (str "abc") = Some (str "-a-b-c-").
Proof. vm_compute. reflexivity. Qed.

Example rewrite_km_mi :
  rewrite [] [(str "km", str "mi")] (str "100 KM limit")
  = Some (str "100 mi limit").
Proof. vm_compute. reflexivity. Qed.

Example rewrite_remove_foo :
  rewrite [str "Foo"] [] (str "This is Foo text")
  = Some (str "This is  text").
Proof. vm_compute. reflexivity. Qed.

(** C5 (divergence). The to-term is handed to [re.sub] as a replacement
    template, not as a literal string.  With the pair ("km", backslash n)
    the item "100 km" becomes "100 " followed by a newline, where literal
    replacement gives "100 " followed by backslash and n; with the pair
    ("km", backslash 1) the call raises (invalid group reference) even
    though the pattern does not occur in the item. *)
Theorem rewrite_to_term_is_template :
  rewrite [] [(str "km", str "\n")] (str "100 km")
    = Some (str "100 " ++ [NEWLINE])
  /\ rewrite_literal [] [(str "km", str "\n")] (str "100 km")
    = str "100 \n"
  /\ rewrite [] [(str "km", str "\n")] (str "100 km")
     <> Some (rewrite_literal [] [(str "km", str "\n")] (str "100 km"))
  /\ rewrite [] [(str "km", str "\1")] (str "no match here") = None.
Proof.
  repeat split; try (vm_compute; reflexivity).
  vm_compute. discriminate.
Qed.

Lemma combine_min {A B : Type} (la : list A) (lb : list B) :
  combine la lb
  = combine (firstn (Nat.min (length la) (length lb)) la)
      (firstn (Nat.min (length la) (length lb)) lb).
Proof.
  revert lb. induction la as [|a la IH]; intros [|b lb]; try reflexivity.
  simpl. f_equal. apply IH.
Qed.

Lemma split_on_nonempty (sep : ascii) (s : text) : split_on sep s <> [].
Proof.
  destruct s as [|c s]; simpl; [discriminate|].
  destruct (Ascii.eqb c sep); [discriminate|].
  destruct (split_on sep s); discriminate.
Qed.

Lemma pair_terms_nonempty (change_from change_to : text) :
  change_from <> [] -> change_to <> [] ->
  pair_terms change_from change_to
  = combine (split_on COMMA change_from) (split_on COMMA change_to).
Proof.
  destruct change_from; [contradiction|].
  destruct change_to; [contradiction|]. reflexivity.
Qed.

(** C10. The from-terms and to-terms are paired by [zip]: with m
    from-terms and n to-terms only the first min(m, n) pairs exist, the
    i-th from-term with the i-th to-term, and the surplus terms take no
    part in the rewrite of any item; no message is printed about them.
    When the to-term variable is empty (there is no to-term), no pair
    exists whatever the from-terms are, and an item is only sanitized and
    stripped of the keywords. *)
Theorem replacement_list_truncates (env : Env) :
  let from_terms := split_on COMMA (CHANGE_FROM env) in
  let to_terms := split_on COMMA (CHANGE_TO env) in
  let k := Nat.min (length from_terms) (length to_terms) in
  (CHANGE_FROM env <> [] -> CHANGE_TO env <> [] ->
   replacement_list env = combine (firstn k from_terms) (firstn k to_terms)
   /\ length (replacement_list env) = k
   /\ forall li,
        clean_item env li
        = rewrite (keyword_list env)
            (combine (firstn k from_terms) (firstn k to_terms))
            (sanitize_text li))
  /\ (CHANGE_TO env = [] ->
      replacement_list env = []
      /\ forall li,
           clean_item env li
           = remove_keywords (keyword_list env) (sanitize_text li)).
Proof.
  intros from_terms to_terms k. split.
  - intros Hf Ht.
    assert (E : replacement_list env
                = combine (firstn k from_terms) (firstn k to_terms)).
    { unfold replacement_list. rewrite (pair_terms_nonempty Hf Ht).
      apply combine_min. }
    split; [exact E|]. split.
    + rewrite E, length_combine, !length_firstn. unfold k. lia.
    + intros li. unfold clean_item. now rewrite E.
  - intros Ht.
    assert (E : replacement_list env = []).
    { unfold replacement_list, pair_terms. rewrite Ht.
      destruct (CHANGE_FROM env); reflexivity. }
    split; [exact E|].
    intros li. unfold clean_item, rewrite. rewrite E.
    destruct (remove_keywords _ _); reflexivity.
Qed.

End Rewrite.

(** Witness of C10: three from-terms and one to-term leave one pair. *)
Lemma replacement_list_truncates_witness :
  replacement_list
    {| REMOVE_WORD := []; CHANGE_PARAMETER1 := str "km,ft,in";
       CHANGE_PARAMETER2 := str " mi " |}
  = combine (firstn 1 [str "km"; str "ft"; str "in"]) (firstn 1 [str "mi"]).
Proof.
  refine (proj1 (proj1 (replacement_list_truncates
                   {| REMOVE_WORD := []; CHANGE_PARAMETER1 := str "km,ft,in";
                      CHANGE_PARAMETER2 := str " mi " |}) _ _));
    vm_compute; discriminate.
Defined.

(** ** Extractor *)

Section Extractor.

Variable env : Env.
Variable csv : csv_file.

Lemma match_iso_codes_fst (names : list text) (w : World) :
  fst (match_iso_codes csv names w)
  = map (fun n => fst (get_iso_code csv n)) names.
Proof.
  revert w. induction names as [|n names IH]; intros w; [reflexivity|].
  simpl. destruct (get_iso_code csv n) as [iso msgs]. simpl.
  specialize (IH (match iso with
                  | Some _ => emit w (map Printed msgs)
                  | None => add_unmatched (emit w (map Printed msgs)) n
                  end)).
  destruct (match_iso_codes csv names _) as [isos w3]. simpl in *.
  now rewrite IH.
Qed.

Lemma match_iso_codes_world (names : list text) (w : World) :
  let w' := snd (match_iso_codes csv names w) in
  country_data_list w' = country_data_list w
  /\ unmatched_countries w'
     = unmatched_countries w
       ++ filter (fun n => match fst (get_iso_code csv n) with
                           | None => true
                           | Some _ => false
                           end) names
  /\ trace w'
     = trace w
       ++ map Printed (flat_map (fun n => snd (get_iso_code csv n)) names).
Proof.
  revert w. induction names as [|n names IH]; intros w.
  - simpl. now rewrite !app_nil_r.
  - simpl. destruct (get_iso_code csv n) as [iso msgs]. simpl.
    specialize (IH (match iso with
                    | Some _ => emit w (map Printed msgs)
                    | None => add_unmatched (emit w (map Printed msgs)) n
                    end)).
    destruct (match_iso_codes csv names _) as [isos w3]. simpl in *.
    destruct IH as (H1 & H2 & H3). rewrite H1, H2, H3.
    destruct iso; simpl; rewrite ?map_app, <- ?app_assoc; auto.
Qed.

Lemma fold_add_country (cs : list CountryInfo) (w : World) :
  let w' := fold_left add_country cs w in
  country_data_list w' = country_data_list w ++ cs
  /\ unmatched_countries w' = unmatched_countries w
  /\ trace w' = trace w.
Proof.
  revert w. induction cs as [|c cs IH]; intros w; simpl.
  - now rewrite app_nil_r.
  - destruct (IH (add_country w c)) as (H1 & H2 & H3).
    rewrite H1, H2, H3. simpl. now rewrite <- app_assoc.
Qed.

Lemma all_descriptions_length (uls ds : list (list text)) :
  all_descriptions env uls = Some ds -> length ds = length uls.
Proof.
  revert ds. induction uls as [|ul uls IH]; intros ds; simpl.
  - intros [= <-]. reflexivity.
  - destruct (extract_descriptions env ul); [|discriminate].
    destruct (all_descriptions env uls); [|discriminate].
    intros [= <-]. simpl. f_equal. now apply IH.
Qed.

(** The drop takes one element off both lists, or none off either. *)
Lemma drop_general_cases (names : list text) (ds : list (list text))
  (names' : list text) (ds' : list (list text)) :
  drop_general names ds = Some (names', ds') ->
  (names' = names /\ ds' = ds)
  \/ (exists first d, names = first :: names' /\ ds = d :: ds'
                      /\ lower first = GENERAL).
Proof.
  unfold drop_general. destruct names as [|first rest].
  - intros [= <- <-]. now left.
  - unfold text_eqb.
    destruct (list_eq_dec ascii_dec (lower first) GENERAL) as [E|E].
    + destruct ds as [|d drest]; [discriminate|].
      intros [= <- <-]. right. now exists first, d.
    + intros [= <- <-]. now left.
Qed.

Lemma zip3_map_names {B C : Type} (f : text -> B) (names : list text)
  (ds : list C) :
  length names = length ds ->
  map (fun x => fst (fst x)) (zip3 names (map f names) ds) = names
  /\ map snd (zip3 names (map f names) ds) = ds
  /\ map (fun x => snd (fst x)) (zip3 names (map f names) ds) = map f names.
Proof.
  revert ds. induction names as [|n names IH]; intros [|d ds] H;
    try discriminate; [now repeat split|].
  simpl in *. injection H as H. destruct (IH ds H) as (H1 & H2 & H3).
  now rewrite H1, H2, H3.
Qed.

(** What a completed pass leaves in the world. *)
Lemma parse_html_file_completed (doc : Document) (w : World)
  (ds : list (list text)) (names : list text) (descs : list (list text)) :
  all_descriptions env (description_tags doc) = Some ds ->
  drop_general (map sanitize_text (country_name_tags doc)) ds
    = Some (names, descs) ->
  let w' := parse_html_file env csv (FileContent doc) w in
  let isos := map (fun n => fst (get_iso_code csv n)) names in
  country_data_list w'
  = country_data_list w
    ++ (if length names =? length descs
        then map (make_country (fst (data_source_version doc)))
               (zip3 names isos descs)
        else [])
  /\ unmatched_countries w'
     = unmatched_countries w
       ++ filter (fun n => match fst (get_iso_code csv n) with
                           | None => true
                           | Some _ => false
                           end) names
  /\ (length names <> length descs ->
      In (Printed (MsgMismatch (length names) (length names) (length descs)))
        (trace w')).
Proof.
  intros Hd Hg. unfold parse_html_file. rewrite Hd, Hg.
  destruct (data_source_version doc) as [v warnings]. simpl fst.
  pose proof (match_iso_codes_fst names (emit w (map Printed warnings))) as F.
  pose proof (match_iso_codes_world names (emit w (map Printed warnings)))
    as W.
  destruct (match_iso_codes csv names _) as [isos w1]. simpl in F, W.
  destruct W as (W1 & W2 & W3). subst isos.
  rewrite length_map, Nat.eqb_refl. simpl andb.
  destruct (length names =? length descs) eqn:L.
  - destruct (fold_add_country
                (map (make_country v)
                   (zip3 names (map (fun n => fst (get_iso_code csv n)) names)
                      descs)) w1) as (H1 & H2 & H3).
    rewrite H1, H2, W1, W2. repeat split; try reflexivity.
    apply Nat.eqb_eq in L. intros X. contradiction.
  - simpl. rewrite W1, W2, app_nil_r. repeat split; try reflexivity.
    intros _. apply in_or_app. right. now left.
Qed.

Lemma make_country_fields (v : text) (l : list (text * option text * list text)) :
  map name (map (make_country v) l) = map (fun x => fst (fst x)) l
  /\ map iso_code (map (make_country v) l) = map (fun x => snd (fst x)) l
  /\ map description (map (make_country v) l)
     = map (join [NEWLINE]) (map snd l)
  /\ map version (map (make_country v) l) = map (fun _ => v) l.
Proof.
  induction l as [|[[n i] d] l (H1 & H2 & H3 & H4)]; [now repeat split|].
  simpl. now rewrite H1, H2, H3, H4.
Qed.

Lemma drop_general_counts (names : list text) (ds : list (list text))
  (names' : list text) (ds' : list (list text)) :
  drop_general names ds = Some (names', ds') ->
  (length names' = length ds' <-> length names = length ds).
Proof.
  intros H. destruct (drop_general_cases _ _ H) as [[-> ->]|(f & d & -> & -> & _)].
  - tauto.
  - simpl. lia.
Qed.

(** A pass that meets any error leaves the record list as it was. *)
Lemma parse_html_file_failed (doc : Document) (w : World) :
  all_descriptions env (description_tags doc) = None
  \/ (exists ds, all_descriptions env (description_tags doc) = Some ds
                 /\ drop_general (map sanitize_text (country_name_tags doc)) ds
                    = None) ->
  let w' := parse_html_file env csv (FileContent doc) w in
  country_data_list w' = country_data_list w
  /\ unmatched_countries w' = unmatched_countries w
  /\ In (Printed MsgHtmlError) (trace w').
Proof.
  intros H. unfold parse_html_file.
  destruct (data_source_version doc) as [v warnings].
  destruct H as [H|(ds & H & G)]; rewrite H; [|rewrite G]; simpl;
    (repeat split; try reflexivity; apply in_or_app; right; now left).
Qed.

(** When the number of country-name blocks and the number of
    description blocks differ (they differ after the "General" drop
    exactly when they differ before it, the drop taking one block off
    each), the pass builds no record at all: the record list is empty,
    never a partial pairing, and the failure is reported, by the mismatch
    diagnostic with the counts after the drop whenever the pass got as far
    as the pairing. *)
Theorem count_mismatch_no_records (doc : Document) :
  length (country_name_tags doc) <> length (description_tags doc) ->
  let w := parse_html_file env csv (FileContent doc) initial_world in
  country_data_list w = []
  /\ (In (Printed MsgHtmlError) (trace w)
      \/ exists n d, n <> d /\ In (Printed (MsgMismatch n n d)) (trace w))
  /\ (forall ds names descs,
        all_descriptions env (description_tags doc) = Some ds ->
        drop_general (map sanitize_text (country_name_tags doc)) ds
          = Some (names, descs) ->
        length names <> length descs
        /\ In (Printed (MsgMismatch (length names) (length names)
                          (length descs))) (trace w)).
Proof.
  intros Hne w.
  assert (Hafter : forall ds names descs,
             all_descriptions env (description_tags doc) = Some ds ->
             drop_general (map sanitize_text (country_name_tags doc)) ds
               = Some (names, descs) ->
             length names <> length descs).
  { intros ds names descs Hd Hg Heq.
    apply (drop_general_counts _ _ Hg) in Heq.
    rewrite length_map, (all_descriptions_length _ Hd) in Heq.
    contradiction. }
  destruct (all_descriptions env (description_tags doc)) as [ds|] eqn:Hd.
  - destruct (drop_general (map sanitize_text (country_name_tags doc)) ds)
      as [[names descs]|] eqn:Hg.
    + destruct (parse_html_file_completed doc initial_world Hd Hg)
        as (R & _ & M).
      pose proof (Hafter ds names descs eq_refl Hg) as Hlen.
      fold w in R, M. split; [|split].
      * rewrite R. apply Nat.eqb_neq in Hlen. now rewrite Hlen.
      * right. exists (length names), (length descs). auto.
      * intros ds0 names0 descs0 [= <-] G. rewrite Hg in G.
        injection G as <- <-. auto.
    + destruct (@parse_html_file_failed doc initial_world) as (R & _ & M).
      { right. exists ds. auto. }
      fold w in R, M. split; [exact R|]. split; [now left|].
      intros ds0 names0 descs0 [= <-] G. rewrite Hg in G. discriminate.
  - destruct (@parse_html_file_failed doc initial_world) as (R & _ & M).
    { now left. }
    fold w in R, M. split; [exact R|]. split; [now left|].
    intros ds0 names0 descs0 G. discriminate.
Qed.

(** C6 (as amended). When the first sanitized country name equals
    "general" up to case, that name and the first description block are
    dropped before pairing: for a document with N country blocks and N
    description blocks whose items rewrite without error, the pass builds
    exactly N-1 records, those of blocks 2..N in order with their own
    description blocks; a record bears the name "General" only if a later
    block is itself named so. *)
Theorem general_block_dropped (doc : Document) (first : text)
  (rest : list text) (ds : list (list text)) :
  country_name_tags doc = first :: rest ->
  lower (sanitize_text first) = GENERAL ->
  length (country_name_tags doc) = length (description_tags doc) ->
  all_descriptions env (description_tags doc) = Some ds ->
  let w := parse_html_file env csv (FileContent doc) initial_world in
  drop_general (map sanitize_text (country_name_tags doc)) ds
    = Some (map sanitize_text rest, tl ds)
  /\ length (country_data_list w) = length (country_name_tags doc) - 1
  /\ map name (country_data_list w) = map sanitize_text rest
  /\ map description (country_data_list w) = map (join [NEWLINE]) (tl ds)
  /\ (forall c, In c (country_data_list w) -> lower (name c) = GENERAL ->
        exists later, In later rest /\ lower (sanitize_text later) = GENERAL).
Proof.
  intros Hn Hfirst Hlen Hd w.
  pose proof (all_descriptions_length _ Hd) as Hds.
  rewrite Hn in Hlen. simpl in Hlen.
  destruct ds as [|d drest]; [simpl in Hds; lia|]. simpl tl.
  assert (Hg : drop_general (map sanitize_text (country_name_tags doc))
                 (d :: drest) = Some (map sanitize_text rest, drest)).
  { rewrite Hn. simpl. rewrite Hfirst. unfold text_eqb.
    destruct (list_eq_dec ascii_dec GENERAL GENERAL); [reflexivity|].
    contradiction. }
  assert (Hl : length (map sanitize_text rest) = length drest).
  { rewrite length_map. simpl in Hds. lia. }
  destruct (parse_html_file_completed doc initial_world Hd Hg) as (R & _ & _).
  fold w in R. simpl in R. rewrite Hl, Nat.eqb_refl in R.
  destruct (make_country_fields (fst (data_source_version doc))
              (zip3 (map sanitize_text rest)
                 (map (fun n => fst (get_iso_code csv n))
                    (map sanitize_text rest)) drest))
    as (F1 & _ & F3 & _).
  destruct (zip3_map_names (fun n => fst (get_iso_code csv n))
              (map sanitize_text rest) drest Hl) as (Z1 & Z2 & _).
  assert (Hnames : map name (country_data_list w) = map sanitize_text rest).
  { rewrite R, F1. exact Z1. }
  split; [exact Hg|]. split; [|split; [exact Hnames|split]].
  - rewrite <- (length_map name), Hnames, length_map, Hn. simpl. lia.
  - rewrite R, F3, Z2. reflexivity.
  - intros c Hc Hgen.
    assert (Hin : In (name c) (map sanitize_text rest)).
    { rewrite <- Hnames. now apply in_map. }
    apply in_map_iff in Hin. destruct Hin as (later & E & Hin).
    exists later. split; [exact Hin|]. now rewrite E.
Qed.

End Extractor.

(** Three country blocks, two description blocks: no record. *)
Lemma count_mismatch_no_records_witness :
  length (country_name_tags doc_three_two) = 3
  /\ length (description_tags doc_three_two) = 2
  /\ country_data_list
       (parse_html_file no_rules sample_csv (FileContent doc_three_two)
          initial_world) = [].
Proof.
  split; [reflexivity|]. split; [reflexivity|].
  refine (proj1 (@count_mismatch_no_records no_rules sample_csv
                   doc_three_two _)).
  vm_compute. discriminate.
Defined.

(** Witness of C6: General, Argentina, Brazil leave two records. *)
Lemma general_block_dropped_witness :
  map name
    (country_data_list
       (parse_html_file no_rules sample_csv (FileContent doc_general)
          initial_world))
  = [str "Argentina"; str "Brazil"].
Proof.
  exact (proj1 (proj2 (proj2
           (@general_block_dropped no_rules sample_csv doc_general
              (str " General ") [str "Argentina"; str "Brazil"]
              [[str "preamble"]; [str "roads"; str "addresses"];
               [str "speed limits"]]
              eq_refl eq_refl eq_refl eq_refl)))).
Defined.

(** C6 (counterexample to the claim as stated). Two country blocks, both
    named "General", with two description blocks: the first is dropped,
    the second becomes a record named "General". *)
Lemma general_named_later_block_counterexample :
  let w := parse_html_file no_rules sample_csv
             (FileContent doc_general_twice) initial_world in
  lower (sanitize_text (hd [] (country_name_tags doc_general_twice)))
    = GENERAL
  /\ length (country_name_tags doc_general_twice)
     = length (description_tags doc_general_twice)
  /\ length (country_data_list w)
     = length (country_name_tags doc_general_twice) - 1
  /\ ~ (forall c, In c (country_data_list w) -> name c <> str "General").
Proof.
  split; [reflexivity|]. split; [reflexivity|]. split; [reflexivity|].
  intros H.
  refine (H {| name := str "General"; version := str "2024.03";
               iso_code := None; description := str "more" |} _ eq_refl).
  vm_compute. left. reflexivity.
Qed.

(** ** Orchestrator *)

Section Orchestrator.

Lemma insert_calls_app (a b : list event) :
  insert_calls (a ++ b) = insert_calls a ++ insert_calls b.
Proof.
  induction a as [|[m|v i d] a IH]; simpl; [reflexivity|exact IH|].
  now rewrite IH.
Qed.

Lemma reported_names_app (a b : list event) :
  reported_names (a ++ b) = reported_names a ++ reported_names b.
Proof.
  induction a as [|[m|v i d] a IH]; simpl; [reflexivity| |exact IH].
  destruct m; simpl; now rewrite ?IH.
Qed.

Lemma listed_countries_app (a b : list event) :
  listed_countries (a ++ b) = listed_countries a ++ listed_countries b.
Proof.
  induction a as [|[m|v i d] a IH]; simpl; [reflexivity| |exact IH].
  destruct m; simpl; now rewrite ?IH.
Qed.

(** Lines that are no report line leave the three observations alone. *)
Lemma plain_lines_silent (ms : list message) :
  forallb (fun m => negb (is_report m)) ms = true ->
  insert_calls (map Printed ms) = []
  /\ reported_names (map Printed ms) = []
  /\ listed_countries (map Printed ms) = [].
Proof.
  induction ms as [|m ms IH]; [now repeat split|].
  simpl. intros H. apply andb_true_iff in H. destruct H as [Hm H].
  destruct (IH H) as (H1 & H2 & H3).
  destruct m; try discriminate; simpl; auto.
Qed.

Lemma unmatched_lines (names : list text) :
  insert_calls (map (fun c => Printed (MsgUnmatchedName c)) names) = []
  /\ reported_names (map (fun c => Printed (MsgUnmatchedName c)) names)
     = names
  /\ listed_countries (map (fun c => Printed (MsgUnmatchedName c)) names)
     = [].
Proof.
  induction names as [|n names (H1 & H2 & H3)]; [now repeat split|].
  simpl. now rewrite H1, H2, H3.
Qed.

Lemma country_lines (cs : list CountryInfo) :
  let lines := flat_map
                 (fun c => [Printed MsgSeparator; Printed (MsgCountry c)])
                 cs in
  insert_calls lines = [] /\ reported_names lines = []
  /\ listed_countries lines = cs.
Proof.
  induction cs as [|c cs (H1 & H2 & H3)]; [now repeat split|].
  simpl. now rewrite H1, H2, H3.
Qed.

(** [display_all_countries] lists the records, all of them, in order. *)
Lemma display_all_countries_lists (w : World) :
  let w' := display_all_countries w in
  country_data_list w' = country_data_list w
  /\ unmatched_countries w' = unmatched_countries w
  /\ insert_calls (trace w') = insert_calls (trace w)
  /\ reported_names (trace w') = reported_names (trace w)
  /\ listed_countries (trace w')
     = listed_countries (trace w) ++ country_data_list w.
Proof.
  destruct (country_lines (country_data_list w)) as (H1 & H2 & H3).
  unfold display_all_countries, print, emit. simpl.
  rewrite !insert_calls_app, !reported_names_app, !listed_countries_app.
  rewrite H1, H2, H3. simpl. now rewrite !app_nil_r.
Qed.

(** While the database can be reached, the loop hands over every record
    once, in list order, and returns. *)
Lemma upload_loop_reachable (db : database) (cs : list CountryInfo) :
  forall (n : nat) (w : World),
  (forall i, i < length cs -> db (n + i) <> DbConnectFails) ->
  exists w',
    upload_loop db n cs w = (w', Returned)
    /\ country_data_list w' = country_data_list w
    /\ unmatched_countries w' = unmatched_countries w
    /\ insert_calls (trace w')
       = insert_calls (trace w) ++ map upsert_args cs
    /\ reported_names (trace w') = reported_names (trace w)
    /\ listed_countries (trace w') = listed_countries (trace w).
Proof.
  induction cs as [|c cs IH]; intros n w Hdb.
  - exists w. simpl. now rewrite app_nil_r.
  - assert (H0 : db n <> DbConnectFails).
    { specialize (Hdb 0). rewrite Nat.add_0_r in Hdb. apply Hdb. simpl. lia. }
    assert (Hrest : forall i, i < length cs -> db (S n + i) <> DbConnectFails).
    { intros i Hi. replace (S n + i) with (n + S i) by lia.
      apply Hdb. simpl. lia. }
    simpl. unfold insert_into_database.
    destruct (db n); [| |contradiction].
    + destruct (IH (S n) (emit w [InsertCall (version c) (iso_code c)
                                   (description c)]) Hrest)
        as (w' & E & H1 & H2 & H3 & H4 & H5).
      exists w'. rewrite E, H1, H2, H3, H4, H5. simpl.
      rewrite insert_calls_app, reported_names_app, listed_countries_app.
      simpl. rewrite !app_nil_r, <- app_assoc. now repeat split.
    + destruct (IH (S n) (print (emit w [InsertCall (version c) (iso_code c)
                                          (description c)]) MsgDatabaseError)
                  Hrest)
        as (w' & E & H1 & H2 & H3 & H4 & H5).
      exists w'. rewrite E, H1, H2, H3, H4, H5. simpl.
      rewrite !insert_calls_app, !reported_names_app, !listed_countries_app.
      simpl. rewrite !app_nil_r, <- app_assoc. now repeat split.
Qed.

(** The gate of [main]: with an unmatched name nothing is handed to the
    database and every unmatched name is reported, in order. *)
Lemma orchestrate_blocked (db : database) (w : World) :
  unmatched_countries w <> [] ->
  exists w',
    orchestrate db w = (w', Returned)
    /\ country_data_list w' = country_data_list w
    /\ unmatched_countries w' = unmatched_countries w
    /\ insert_calls (trace w') = insert_calls (trace w)
    /\ reported_names (trace w')
       = reported_names (trace w) ++ unmatched_countries w
    /\ listed_countries (trace w')
       = listed_countries (trace w) ++ country_data_list w.
Proof.
  intros H. unfold orchestrate. simpl.
  destruct (unmatched_countries w) as [|u us] eqn:U; [contradiction|].
  eexists. split; [reflexivity|].
  match goal with |- context [display_all_countries ?x] =>
    destruct (display_all_countries_lists x) as (D1 & D2 & D3 & D4 & D5)
  end.
  rewrite D1, D2, D3, D4, D5.
  destruct (unmatched_lines (u :: us)) as (L1 & L2 & L3).
  unfold print, emit. cbn [trace country_data_list unmatched_countries].
  rewrite !insert_calls_app, !reported_names_app, !listed_countries_app.
  rewrite L1, L2, L3. simpl. rewrite !app_nil_r. now repeat split.
Qed.

(** With no unmatched name and a reachable database, every record is
    handed over once, in order. *)
Lemma orchestrate_uploads (db : database) (w : World) :
  unmatched_countries w = [] ->
  reachable db (length (country_data_list w)) ->
  exists w',
    orchestrate db w = (w', Returned)
    /\ country_data_list w' = country_data_list w
    /\ unmatched_countries w' = unmatched_countries w
    /\ insert_calls (trace w')
       = insert_calls (trace w) ++ map upsert_args (country_data_list w)
    /\ reported_names (trace w') = reported_names (trace w)
    /\ listed_countries (trace w')
       = listed_countries (trace w) ++ country_data_list w.
Proof.
  intros U Hdb. unfold orchestrate.
  cbn [unmatched_countries print emit]. rewrite U.
  unfold upload_data_to_db. cbn [country_data_list print emit].
  match goal with |- context [upload_loop db 0 _ ?x] =>
    destruct (@upload_loop_reachable db (country_data_list w) 0 x Hdb)
      as (w1 & E & H1 & H2 & H3 & H4 & H5)
  end.
  rewrite E. eexists. split; [reflexivity|].
  destruct (display_all_countries_lists w1) as (D1 & D2 & D3 & D4 & D5).
  rewrite D1, D2, D3, D4, D5, H1, H2, H3, H4, H5. simpl.
  rewrite !insert_calls_app, !reported_names_app, !listed_countries_app.
  simpl. rewrite !app_nil_r. now repeat split.
Qed.

Lemma get_iso_code_plain (csv : csv_file) (n : text) :
  forallb (fun m => negb (is_report m)) (snd (get_iso_code csv n)) = true.
Proof.
  destruct csv as [| |[|h rows]]; try reflexivity.
  simpl. destruct (scan_rows n rows); reflexivity.
Qed.

Lemma flat_map_plain (csv : csv_file) (names : list text) :
  forallb (fun m => negb (is_report m))
    (flat_map (fun n => snd (get_iso_code csv n)) names) = true.
Proof.
  induction names as [|n names IH]; [reflexivity|].
  simpl. rewrite forallb_app, IH, get_iso_code_plain. reflexivity.
Qed.

Lemma data_source_version_plain (doc : Document) :
  forallb (fun m => negb (is_report m)) (snd (data_source_version doc)) = true.
Proof.
  unfold data_source_version. destruct (title doc) as [t|]; [|reflexivity].
  destruct (split_ws t) as [|a [|b [|c r]]]; reflexivity.
Qed.

(** The pass prints diagnostics only: it hands nothing to the database
    and prints no report line. *)
Lemma parse_html_file_silent (env : Env) (csv : csv_file)
  (html : file_source Document) (w : World) :
  let w' := parse_html_file env csv html w in
  insert_calls (trace w') = insert_calls (trace w)
  /\ reported_names (trace w') = reported_names (trace w)
  /\ listed_countries (trace w') = listed_countries (trace w).
Proof.
  assert (P : forall (x : World) (ms : list message),
             forallb (fun m => negb (is_report m)) ms = true ->
             insert_calls (trace (emit x (map Printed ms)))
               = insert_calls (trace x)
             /\ reported_names (trace (emit x (map Printed ms)))
                = reported_names (trace x)
             /\ listed_countries (trace (emit x (map Printed ms)))
                = listed_countries (trace x)).
  { intros x ms Hms. destruct (plain_lines_silent ms Hms) as (H1 & H2 & H3).
    unfold emit. cbn [trace].
    rewrite insert_calls_app, reported_names_app, listed_countries_app.
    rewrite H1, H2, H3, !app_nil_r. now repeat split. }
  unfold parse_html_file.
  destruct html as [| |doc];
    [exact (P w [MsgHtmlNotFound] eq_refl)
    |exact (P w [MsgHtmlError] eq_refl)|].
  pose proof (data_source_version_plain doc) as Hv.
  destruct (data_source_version doc) as [v warnings]. simpl in Hv.
  destruct (P w warnings Hv) as (A1 & A2 & A3).
  destruct (all_descriptions env (description_tags doc)) as [ds|].
  2:{ destruct (P (emit w (map Printed warnings)) [MsgHtmlError] eq_refl)
        as (B1 & B2 & B3).
      repeat split;
        (etransitivity; [first [exact B1|exact B2|exact B3]|assumption]). }
  destruct (drop_general _ ds) as [[names descs]|].
  2:{ destruct (P (emit w (map Printed warnings)) [MsgHtmlError] eq_refl)
        as (B1 & B2 & B3).
      repeat split;
        (etransitivity; [first [exact B1|exact B2|exact B3]|assumption]). }
  pose proof (match_iso_codes_world csv names
                (emit w (map Printed warnings))) as W.
  destruct (match_iso_codes csv names _) as [isos w1]. simpl in W.
  destruct W as (_ & _ & W3).
  destruct (plain_lines_silent _ (flat_map_plain csv names))
    as (C1 & C2 & C3).
  assert (Q : insert_calls (trace w1) = insert_calls (trace w)
              /\ reported_names (trace w1) = reported_names (trace w)
              /\ listed_countries (trace w1) = listed_countries (trace w)).
  { rewrite W3, insert_calls_app, reported_names_app, listed_countries_app.
    rewrite C1, C2, C3, !app_nil_r. auto. }
  destruct Q as (Q1 & Q2 & Q3).
  destruct (_ && _).
  - match goal with |- context [fold_left add_country ?cs w1] =>
      destruct (fold_add_country cs w1) as (_ & _ & F)
    end.
    rewrite F. auto.
  - match goal with |- context [print w1 ?m] =>
      destruct (P w1 [m] eq_refl) as (B1 & B2 & B3)
    end.
    repeat split;
      (etransitivity; [first [exact B1|exact B2|exact B3]|assumption]).
Qed.





End Orchestrator.



(** C1 (divergence). On the General, Argentina, Brazil document with both
    names resolved and a database that cannot be reached, the first call
    of [insert_into_database] raises out of its [finally] clause: the
    record of Argentina is handed over, the record of Brazil never is,
    [main] is left by the exception and the listing is not printed. *)
Theorem upload_stops_at_connect_failure :
  let w := parse_html_file no_rules sample_csv (FileContent doc_general)
             initial_world in
  let r := main no_rules sample_csv (FileContent doc_general)
             db_unreachable in
  unmatched_countries w = []
  /\ map upsert_args (country_data_list w)
     = [ (str "2024.03", Some (str "AR"),
          str "roads" ++ [NEWLINE] ++ str "addresses");
         (str "2024.03", Some (str "BR"), str "speed limits") ]
  /\ insert_calls (trace (fst r))
     = [ (str "2024.03", Some (str "AR"),
          str "roads" ++ [NEWLINE] ++ str "addresses") ]
  /\ snd r = Raised
  /\ listed_countries (trace (fst r)) = [].
Proof. repeat split; vm_compute; reflexivity. Qed.

(** The gate of [main] on any run whose database can be reached: with an
    unmatched name no record is handed over and every unmatched name is
    reported, in order; with none, every record is handed over once, in
    extraction order.  Either way every record is listed. *)
Lemma main_gate_reachable_database (env : Env) (csv : csv_file)
  (html : file_source Document) (db : database) :
  let w := parse_html_file env csv html initial_world in
  let r := main env csv html db in
  (unmatched_countries w <> [] ->
   snd r = Returned
   /\ insert_calls (trace (fst r)) = []
   /\ reported_names (trace (fst r)) = unmatched_countries w
   /\ listed_countries (trace (fst r)) = country_data_list w)
  /\ (unmatched_countries w = [] ->
      reachable db (length (country_data_list w)) ->
      snd r = Returned
      /\ insert_calls (trace (fst r)) = map upsert_args (country_data_list w)
      /\ reported_names (trace (fst r)) = []
      /\ listed_countries (trace (fst r)) = country_data_list w).
Proof.
  intros w r. unfold r, main. fold w.
  destruct (parse_html_file_silent env csv html initial_world)
    as (S1 & S2 & S3).
  fold w in S1, S2, S3. simpl in S1, S2, S3. split.
  - intros U.
    destruct (@orchestrate_blocked db w U) as (w' & E & H1 & H2 & H3 & H4 & H5).
    rewrite E. cbn [fst snd]. rewrite H3, H4, H5, S1, S2, S3.
    now repeat split.
  - intros U Hdb.
    destruct (@orchestrate_uploads db w U Hdb) as (w' & E & H1 & H2 & H3 & H4 & H5).
    rewrite E. cbn [fst snd]. rewrite H3, H4, H5, S1, S2, S3.
    now repeat split.
Qed.

(** End to end: General, Argentina, Brazil with both names in the table. *)
Example end_to_end_upload :
  let r := main no_rules sample_csv (FileContent doc_general) db_up in
  map iso_code (country_data_list (fst r)) = [Some (str "AR"); Some (str "BR")]
  /\ unmatched_countries (fst r) = []
  /\ map (fun a => snd (fst a)) (insert_calls (trace (fst r)))
     = [Some (str "AR"); Some (str "BR")].
Proof. repeat split; vm_compute; reflexivity. Qed.

(** End to end: the same document, Brazil missing from the table. *)
Example end_to_end_unmatched :
  let r := main no_rules csv_without_brazil (FileContent doc_general) db_up in
  unmatched_countries (fst r) = [str "Brazil"]
  /\ insert_calls (trace (fst r)) = []
  /\ map iso_code (listed_countries (trace (fst r)))
     = [Some (str "AR"); None].
Proof. repeat split; vm_compute; reflexivity. Qed.

(** * Further properties *)

(** ** Sanitizer: what it keeps and what it drops *)

Section SanitizerMore.

Lemma newline_tab_is_space (c : ascii) :
  is_newline_or_tab c = true -> is_space c = true.
Proof.
  unfold is_newline_or_tab. intros H. apply orb_true_iff in H.
  destruct H as [H|H]; apply Ascii.eqb_eq in H; subst; reflexivity.
Qed.

Lemma visible_remove_newlines_tabs (s : text) :
  filter visible (remove_newlines_tabs s) = filter visible s.
Proof.
  induction s as [|c s IH]; [reflexivity|]. simpl.
  destruct (is_newline_or_tab c) eqn:E; simpl.
  - unfold visible at 2. now rewrite (newline_tab_is_space _ E).
  - now rewrite IH.
Qed.

Lemma visible_collapse_spaces (s : text) :
  filter visible (collapse_spaces s) = filter visible s.
Proof.
  induction s as [|c s IH]; [reflexivity|].
  rewrite collapse_spaces_cons.
  destruct (Ascii.eqb c SPACE) eqn:E.
  - apply Ascii.eqb_eq in E. subst c.
    destruct s as [|c' s']; [reflexivity|].
    destruct (Ascii.eqb c' SPACE); [exact IH|].
    cbn [filter]. now rewrite IH.
  - cbn [filter]. now rewrite IH.
Qed.

Lemma visible_lstrip (s : text) : filter visible (lstrip s) = filter visible s.
Proof.
  induction s as [|c s IH]; [reflexivity|]. simpl.
  unfold visible at 2. destruct (is_space c) eqn:E; simpl; [exact IH|].
  unfold visible at 1. now rewrite E.
Qed.

Lemma visible_strip (s : text) : filter visible (strip s) = filter visible s.
Proof.
  unfold strip, rstrip.
  rewrite filter_rev, visible_lstrip, <- filter_rev, rev_involutive.
  apply visible_lstrip.
Qed.

Lemma lstrip_length (s : text) : length (lstrip s) <= length s.
Proof.
  induction s as [|c s IH]; simpl; [lia|].
  destruct (is_space c); simpl; lia.
Qed.

Lemma strip_length (s : text) : length (strip s) <= length s.
Proof.
  unfold strip, rstrip. rewrite length_rev.
  pose proof (lstrip_length (rev (lstrip s))) as H1.
  pose proof (lstrip_length s) as H2. rewrite length_rev in H1. lia.
Qed.

Lemma collapse_spaces_length (s : text) :
  length (collapse_spaces s) <= length s.
Proof.
  induction s as [|c s IH]; [simpl; lia|].
  rewrite collapse_spaces_cons.
  destruct (Ascii.eqb c SPACE).
  - destruct s as [|c' s']; [simpl; lia|].
    destruct (Ascii.eqb c' SPACE); simpl in *; lia.
  - simpl. lia.
Qed.

(** X1. [sanitize_text] leaves a string unchanged exactly when the string
    has no newline or tab, no two consecutive spaces, and neither starts
    nor ends with white space: the sanitized strings are the fixed points,
    and every result of [sanitize_text] is one. *)
Theorem sanitize_text_fixed_iff (x : text) :
  (sanitize_text x = x <-> sanitized x) /\ sanitized (sanitize_text x).
Proof.
  assert (S : sanitized (sanitize_text x)).
  { repeat split.
    - eapply sanitize_no_newline_tab; eassumption.
    - eapply sanitize_no_newline_tab; eassumption.
    - apply sanitize_no_double_space.
    - apply strip_starts_clean.
    - apply strip_ends_clean. }
  split; [|exact S]. split.
  - intros H. rewrite <- H. exact S.
  - intros (H1 & H2 & H3 & H4). unfold sanitize_text.
    rewrite (remove_newlines_tabs_fixed H1), (collapse_spaces_fixed H2).
    now apply strip_fixed.
Qed.

(** X2. [sanitize_text] only deletes white space: the characters that are
    no white space come out unchanged and in the same order, and the result
    is never longer than the input. *)
Theorem sanitize_text_keeps_visible (x : text) :
  filter visible (sanitize_text x) = filter visible x
  /\ length (sanitize_text x) <= length x.
Proof.
  unfold sanitize_text. split.
  - now rewrite visible_strip, visible_collapse_spaces,
      visible_remove_newlines_tabs.
  - pose proof (strip_length (collapse_spaces (remove_newlines_tabs x))).
    pose proof (collapse_spaces_length (remove_newlines_tabs x)).
    pose proof (filter_length_le (fun c => negb (is_newline_or_tab c)) x).
    unfold remove_newlines_tabs in *. lia.
Qed.

(** X3. A newline or a tab is deleted before spaces are collapsed, not
    turned into a space: the text on its two sides is joined, and the
    result is that of the input without the character. *)
Theorem sanitize_text_joins_lines (a b : text) (c : ascii) :
  is_newline_or_tab c = true ->
  sanitize_text (a ++ c :: b) = sanitize_text (a ++ b).
Proof.
  intros H. unfold sanitize_text, remove_newlines_tabs.
  rewrite !filter_app. simpl. now rewrite H.
Qed.

End SanitizerMore.

(** Witness of X3: two words on two lines become one word. *)
Lemma sanitize_text_joins_lines_witness :
  sanitize_text (str "Costa" ++ NEWLINE :: str "Rica") = str "CostaRica".
Proof.
  rewrite (@sanitize_text_joins_lines (str "Costa") (str "Rica") NEWLINE
             eq_refl).
  reflexivity.
Defined.

(** ** Name resolver: the two tests and the shape of the table *)

Section ResolverMore.

Lemma search_ci_unfold (p s : text) :
  search_ci p s
  = match_here p s
    || match s with
       | [] => false
       | _ :: s' => search_ci p s'
       end.
Proof. destruct s; reflexivity. Qed.

Lemma match_here_iff (p s : text) :
  match_here p s = true <-> exists m b, s = m ++ b /\ lower m = lower p.
Proof.
  revert s. induction p as [|a p IH]; intros s.
  - rewrite match_here_nil. split; [|reflexivity].
    intros _. exists [], s. now split.
  - destruct s as [|c s]; simpl.
    + split; [discriminate|].
      intros (m & b & E & L). symmetry in E. apply app_eq_nil in E.
      destruct E as [-> _]. discriminate.
    + rewrite andb_true_iff, Ascii.eqb_eq, IH. split.
      * intros (Hc & m & b & -> & L). exists (c :: m), b.
        split; [reflexivity|]. simpl. now rewrite L, Hc.
      * intros (m & b & E & L). destruct m as [|x m]; [discriminate|].
        simpl in E, L. injection E as -> ->. injection L as Hc L.
        split; [now symmetry|]. now exists m, b.
Qed.

(** X4. On text of code points below 256 (ASCII and Latin-1, the text
    model of this file), the substring test of [get_iso_code] succeeds
    exactly when some stretch of the raw name has the same lower-case form
    as the canonical name.  Beyond that range [re.IGNORECASE] and
    [str.lower] part ways and the statement is not claimed. *)
Theorem search_ci_iff_occurs (p s : text) :
  search_ci p s = true
  <-> exists a m b, s = a ++ m ++ b /\ lower m = lower p.
Proof.
  induction s as [|c s IH]; rewrite search_ci_unfold, orb_true_iff.
  - rewrite match_here_iff. split.
    + intros [(m & b & E & L)|H]; [|discriminate]. now exists [], m, b.
    + intros (a & m & b & E & L). left. destruct a; [|discriminate].
      now exists m, b.
  - rewrite match_here_iff, IH. split.
    + intros [(m & b & E & L)|(a & m & b & E & L)].
      * now exists [], m, b.
      * exists (c :: a), m, b. split; [now rewrite E|exact L].
    + intros (a & m & b & E & L). destruct a as [|x a].
      * left. now exists m, b.
      * right. injection E as _ E. now exists a, m, b.
Qed.

Lemma match_here_congr (p s1 s2 : text) :
  lower s1 = lower s2 -> match_here p s1 = match_here p s2.
Proof.
  revert s1 s2. induction p as [|a p IH]; intros s1 s2 H.
  - now rewrite !match_here_nil.
  - destruct s1 as [|c1 s1], s2 as [|c2 s2]; try discriminate;
      [reflexivity|].
    simpl in *. injection H as Hc H. now rewrite Hc, (IH s1 s2 H).
Qed.

Lemma search_ci_congr (p s1 s2 : text) :
  lower s1 = lower s2 -> search_ci p s1 = search_ci p s2.
Proof.
  revert s2. induction s1 as [|c1 s1 IH]; intros [|c2 s2] H;
    try discriminate; [reflexivity|].
  rewrite (search_ci_unfold p (c1 :: s1)), (search_ci_unfold p (c2 :: s2)).
  rewrite (match_here_congr p _ _ H).
  simpl in H. injection H as _ H. now rewrite (IH s2 H).
Qed.

Lemma scan_rows_congr (n1 n2 : text) (rows : list csv_row) :
  lower n1 = lower n2 -> scan_rows n1 rows = scan_rows n2 rows.
Proof.
  intros H. induction rows as [|row rows IH]; [reflexivity|]. simpl.
  destruct (read_row row) as [e|]; [|reflexivity].
  unfold eq_ci. rewrite H, (search_ci_congr _ _ _ H), IH. reflexivity.
Qed.

(** X5. On text of code points below 256 (ASCII and Latin-1, the text
    model of this file), the resolver does not look at the case of the raw
    name: two raw names with the same lower-case form get the same answer
    and the same diagnostics, whatever the reference table file is.
    Beyond that range the statement is not claimed. *)
Theorem get_iso_code_ignores_case (csv : csv_file) (n1 n2 : text) :
  lower n1 = lower n2 -> get_iso_code csv n1 = get_iso_code csv n2.
Proof.
  intros H. destruct csv as [| |[|header rows]]; try reflexivity.
  simpl. now rewrite (@scan_rows_congr n1 n2 rows H).
Qed.

Lemma eq_ci_true (a b : text) : eq_ci a b = true -> lower a = lower b.
Proof.
  unfold eq_ci, text_eqb.
  destruct (list_eq_dec ascii_dec (lower a) (lower b)); [auto|discriminate].
Qed.

Lemma eq_ci_search_ci (p s : text) :
  eq_ci p s = true -> search_ci p s = true.
Proof.
  intros H. apply eq_ci_true in H.
  rewrite search_ci_unfold. apply orb_true_iff. left.
  apply match_here_iff. exists s, []. split; [now rewrite app_nil_r|].
  now symmetry.
Qed.

Lemma entry_matches_search (raw : text) (e : ReferenceEntry) :
  entry_matches raw e = search_ci (ref_name e) raw.
Proof.
  unfold entry_matches. destruct (eq_ci (ref_name e) raw) eqn:E;
    [|reflexivity].
  now rewrite (eq_ci_search_ci _ _ E).
Qed.

Lemma strip_clean (s : text) : starts_clean (strip s) /\ ends_clean (strip s).
Proof. split; [apply strip_starts_clean | apply strip_ends_clean]. Qed.

(** X6. A code returned by [get_iso_code] is never made up: it is the
    first field, stripped of surrounding white space, of a data row whose
    stripped second field occurs in the raw name up to case.  The header
    row is never the source. *)
Theorem get_iso_code_from_table (header : csv_row) (rows : list csv_row)
  (raw iso : text) :
  fst (get_iso_code (FileContent (header :: rows)) raw) = Some iso ->
  exists c0 c1 more,
    In (c0 :: c1 :: more) rows
    /\ iso = strip c0
    /\ search_ci (strip c1) raw = true
    /\ starts_clean iso /\ ends_clean iso.
Proof.
  rewrite get_iso_code_rows.
  induction rows as [|row rows IH]; [discriminate|].
  rewrite scan_rows_cons.
  destruct row as [|c0 [|c1 more]]; try discriminate. cbn [read_row].
  rewrite entry_matches_search. cbn [ref_name ref_iso_code].
  destruct (search_ci (strip c1) raw) eqn:M.
  - intros [= <-]. exists c0, c1, more.
    split; [now left|]. split; [reflexivity|]. split; [exact M|].
    apply strip_clean.
  - intros H. destruct (IH H) as (d0 & d1 & m & Hin & R).
    exists d0, d1, m. split; [now right|exact R].
Qed.

(** X7. The scan stops at the first data row with fewer than two fields:
    the rows after it are never read.  If an earlier row matched, its code
    is returned; if none did, the answer is absent with the read-error
    diagnostic, even when a later row would match. *)
Theorem get_iso_code_stops_at_short_row (header : csv_row)
  (pre : list csv_row) (bad : csv_row) (post : list csv_row) (raw : text) :
  rows_well_formed pre = true ->
  read_row bad = None ->
  get_iso_code (FileContent (header :: pre ++ bad :: post)) raw
  = match resolve raw (reference_table pre) with
    | Some iso => (Some iso, [])
    | None => (None, [MsgCsvError])
    end.
Proof.
  intros Hwf Hbad. simpl. rewrite scan_rows_app, scan_rows_spec, Hwf.
  unfold resolve.
  destruct (find (entry_matches raw) (reference_table pre)); [reflexivity|].
  rewrite scan_rows_cons, Hbad. reflexivity.
Qed.

Lemma find_search (raw : text) (table : list ReferenceEntry) :
  find (entry_matches raw) table
  = find (fun e => search_ci (ref_name e) raw) table.
Proof.
  induction table as [|e t IH]; [reflexivity|]. simpl.
  now rewrite entry_matches_search, IH.
Qed.

(** X8. On text of code points below 256 (ASCII and Latin-1, the text
    model of this file), the exact-equality test never changes the answer:
    a name with the same lower-case form as the raw name also occurs in
    it, so on a readable table [get_iso_code] returns the code of the
    first entry whose name occurs in the raw name up to case, and absent
    if there is none.  Beyond that range the exact test can decide alone
    and the statement is not claimed. *)
Theorem get_iso_code_substring_decides (header : csv_row)
  (rows : list csv_row) (raw : text) :
  rows_well_formed rows = true ->
  (forall e, eq_ci (ref_name e) raw = true ->
             search_ci (ref_name e) raw = true)
  /\ fst (get_iso_code (FileContent (header :: rows)) raw)
     = option_map ref_iso_code
         (find (fun e => search_ci (ref_name e) raw) (reference_table rows)).
Proof.
  intros Hwf. split; [intros e; apply eq_ci_search_ci|].
  rewrite get_iso_code_rows, scan_rows_spec, Hwf, find_search.
  destruct (find _ _); reflexivity.
Qed.

(** X9. Table order beats exactness: when the scan reaches an entry whose
    name occurs in the raw name, that entry's code is returned, whatever
    follows it, an entry equal to the raw name included. *)
Theorem earlier_substring_shadows_later_rows (header : csv_row)
  (pre : list csv_row) (row : csv_row) (post : list csv_row)
  (e : ReferenceEntry) (raw : text) :
  scan_rows raw pre = Exhausted ->
  read_row row = Some e ->
  search_ci (ref_name e) raw = true ->
  get_iso_code (FileContent (header :: pre ++ row :: post)) raw
  = (Some (ref_iso_code e), []).
Proof.
  intros Hpre Hrow Hm. simpl.
  rewrite scan_rows_app, Hpre, scan_rows_cons, Hrow, entry_matches_search, Hm.
  reflexivity.
Qed.

End ResolverMore.

(** Witness of X5. *)
Lemma get_iso_code_ignores_case_witness :
  get_iso_code sample_csv (str "BRAZIL (south)")
  = get_iso_code sample_csv (str "brazil (South)").
Proof.
  exact (@get_iso_code_ignores_case sample_csv (str "BRAZIL (south)")
           (str "brazil (South)") eq_refl).
Defined.

(** Witness of X6. *)
Lemma get_iso_code_from_table_witness :
  exists c0 c1 more,
    In (c0 :: c1 :: more) sample_csv_rows
    /\ str "AR" = strip c0
    /\ search_ci (strip c1) (str "Argentina (north)") = true
    /\ starts_clean (str "AR") /\ ends_clean (str "AR").
Proof.
  exact (@get_iso_code_from_table sample_header sample_csv_rows
           (str "Argentina (north)") (str "AR") eq_refl).
Defined.

(** Witness of X7: the blank line hides the Brazil row. *)
Lemma get_iso_code_stops_at_short_row_witness :
  get_iso_code
    (FileContent (sample_header
                  :: [[str "AR"; str "Argentina"]]
                     ++ [] :: [[str "BR"; str "Brazil"]]))
    (str "Brazil")
  = (None, [MsgCsvError]).
Proof.
  exact (@get_iso_code_stops_at_short_row sample_header
           [[str "AR"; str "Argentina"]] [] [[str "BR"; str "Brazil"]]
           (str "Brazil") eq_refl eq_refl).
Defined.

(** Witness of X8. *)
Lemma get_iso_code_substring_decides_witness :
  fst (get_iso_code sample_csv (str "brazil"))
  = option_map ref_iso_code
      (find (fun e => search_ci (ref_name e) (str "brazil"))
         (reference_table sample_csv_rows)).
Proof.
  exact (proj2 (@get_iso_code_substring_decides sample_header
                  sample_csv_rows (str "brazil") eq_refl)).
Defined.

(** Witness of X9: "Nigeria" resolves to the code of Niger, listed
    first. *)
Lemma earlier_substring_shadows_later_rows_witness :
  get_iso_code
    (FileContent (sample_header
                  :: [] ++ [str "NE"; str "Niger"]
                     :: [[str "NG"; str "Nigeria"]]))
    (str "Nigeria")
  = (Some (str "NE"), []).
Proof.
  exact (@earlier_substring_shadows_later_rows sample_header []
           [str "NE"; str "Niger"] [[str "NG"; str "Nigeria"]]
           {| ref_iso_code := str "NE"; ref_name := str "Niger" |}
           (str "Nigeria") eq_refl eq_refl eq_refl).
Defined.

(** ** Rewrite step: rule lists, rules that do not apply, bad templates *)

Section RewriteMore.

Lemma join_cons_char (sep : text) (c : ascii) (f : text) (fs : list text) :
  join sep ((c :: f) :: fs) = c :: join sep (f :: fs).
Proof. destruct fs; reflexivity. Qed.

Lemma split_on_join (sep : ascii) (s : text) :
  join [sep] (split_on sep s) = s.
Proof.
  induction s as [|c s IH]; [reflexivity|]. simpl.
  destruct (Ascii.eqb c sep) eqn:E.
  - apply Ascii.eqb_eq in E. subst c.
    pose proof (split_on_nonempty sep s) as N.
    destruct (split_on sep s) as [|f fs]; [contradiction|].
    simpl in *. now rewrite IH.
  - pose proof (split_on_nonempty sep s) as N.
    destruct (split_on sep s) as [|f fs]; [contradiction|].
    rewrite join_cons_char. now rewrite IH.
Qed.

Lemma split_on_fields (sep : ascii) (s f : text) :
  In f (split_on sep s) ->
  ~ In sep f /\ forall c, In c f -> In c s.
Proof.
  revert f. induction s as [|c s IH]; intros f; simpl.
  - intros [<-|[]]. split; [tauto|intros c []].
  - destruct (Ascii.eqb c sep) eqn:E.
    + intros [<-|H]; [split; [tauto|intros x []]|].
      destruct (IH f H) as [H1 H2]. split; [exact H1|].
      intros x Hx. right. now apply H2.
    + destruct (split_on sep s) as [|g gs] eqn:S.
      * intros [<-|[]]. split.
        -- intros [X|[]]. apply Ascii.eqb_neq in E. congruence.
        -- intros x [<-|[]]. now left.
      * intros [<-|H].
        -- destruct (IH g (or_introl eq_refl)) as [H1 H2]. split.
           ++ intros [X|X]; [apply Ascii.eqb_neq in E; congruence|tauto].
           ++ intros x [<-|Hx]; [now left|right; now apply H2].
        -- destruct (IH f (or_intror H)) as [H1 H2]. split; [exact H1|].
           intros x Hx. right. now apply H2.
Qed.

(** X10. The keyword list is [REMOVE_KEYWORDS] cut at its commas and
    nothing else: joining the keywords with commas gives the variable
    back, no keyword holds a comma, and every character of a keyword is a
    character of [REMOVE_WORD]. *)
Theorem keyword_list_round_trip (env : Env) :
  join [COMMA] (keyword_list env) = REMOVE_KEYWORDS env
  /\ (forall k, In k (keyword_list env) ->
        ~ In COMMA k /\ forall c, In c k -> In c (REMOVE_WORD env)).
Proof.
  unfold keyword_list. destruct (REMOVE_KEYWORDS env) as [|c r] eqn:E.
  - split; [reflexivity|intros k []].
  - split; [apply split_on_join|].
    intros k Hk. destruct (@split_on_fields _ _ _ Hk) as [H1 H2].
    split; [exact H1|]. intros x Hx. apply H2 in Hx.
    rewrite <- E in Hx. unfold REMOVE_KEYWORDS in Hx.
    now apply strip_In in Hx.
Qed.

Lemma search_ci_false_nonempty (p : text) : search_ci p [] = false -> p <> [].
Proof. destruct p; [discriminate|discriminate]. Qed.

Lemma sub_scan_no_occurrence (p : text) (tpl : list tpl_item) (s : text) :
  search_ci p s = false -> sub_scan p tpl 0 s = s.
Proof.
  induction s as [|c s IH]; intros H.
  - destruct p; [discriminate|reflexivity].
  - rewrite search_ci_unfold in H. apply orb_false_iff in H.
    destruct H as [H1 H2]. cbn [sub_scan]. rewrite H1. now rewrite (IH H2).
Qed.

Lemma remove_keywords_no_occurrence (keywords : list text) (s : text) :
  (forall k, In k keywords -> search_ci k s = false) ->
  remove_keywords keywords s = Some s.
Proof.
  induction keywords as [|k ks IH]; intros H; [reflexivity|].
  simpl. unfold re_sub_ci. simpl.
  rewrite (@sub_scan_no_occurrence _ _ _ (H k (or_introl eq_refl))).
  apply IH. intros x Hx. apply H. now right.
Qed.

Lemma apply_replacements_no_occurrence (subs : list (text * text))
  (s : text) :
  (forall p, In p subs ->
     search_ci (fst p) s = false /\ parse_template (snd p) <> None) ->
  apply_replacements subs s = Some s.
Proof.
  induction subs as [|[f t] subs IH]; intros H; [reflexivity|].
  destruct (H (f, t) (or_introl eq_refl)) as [H1 H2]. simpl in H1, H2.
  simpl. unfold re_sub_ci.
  destruct (parse_template t) as [tpl|]; [|contradiction].
  rewrite (@sub_scan_no_occurrence _ _ _ H1).
  apply IH. intros x Hx. apply H. now right.
Qed.

(** X11. Rules that do not apply change nothing: when no keyword and no
    from-term occurs in an item (up to case) and every to-term is a valid
    replacement template, the rewrite returns the item as it is. *)
Theorem rewrite_without_occurrence (keywords : list text)
  (subs : list (text * text)) (s : text) :
  (forall k, In k keywords -> search_ci k s = false) ->
  (forall p, In p subs ->
     search_ci (fst p) s = false /\ parse_template (snd p) <> None) ->
  rewrite keywords subs s = Some s.
Proof.
  intros Hk Hs. unfold rewrite.
  rewrite (@remove_keywords_no_occurrence _ _ Hk).
  now apply apply_replacements_no_occurrence.
Qed.

Lemma replacement_list_to_terms (env : Env) (p : text * text) :
  In p (replacement_list env) ->
  forall c, In c (snd p) -> In c (CHANGE_PARAMETER2 env).
Proof.
  unfold replacement_list, pair_terms. destruct p as [f t].
  destruct (CHANGE_FROM env) as [|a fr]; [intros []|].
  destruct (CHANGE_TO env) as [|b to] eqn:E; [intros []|].
  intros H c Hc. apply in_combine_r in H.
  apply split_on_fields in H. destruct H as [_ H].
  apply H in Hc. rewrite <- E in Hc. unfold CHANGE_TO in Hc.
  now apply strip_In in Hc.
Qed.

(** X12. When [CHANGE_PARAMETER2] holds no backslash, the extraction of a
    description block cannot fail: it returns one cleaned line per list
    item, in order, each the sanitized item with every keyword removed
    and then every from-term replaced by its literal to-term. *)
Theorem extract_descriptions_literal (env : Env) (list_items : list text) :
  no_backslash (CHANGE_PARAMETER2 env) ->
  extract_descriptions env list_items
  = Some (map (fun li =>
                 rewrite_literal (keyword_list env) (replacement_list env)
                   (sanitize_text li)) list_items).
Proof.
  intros H.
  assert (L : forall p, In p (replacement_list env) -> no_backslash (snd p)).
  { intros p Hp Hb. apply H. exact (@replacement_list_to_terms _ _ Hp _ Hb). }
  induction list_items as [|li rest IH]; [reflexivity|].
  simpl. unfold clean_item. rewrite (@rewrite_is_literal _ _ _ L), IH.
  reflexivity.
Qed.

Lemma apply_replacements_bad (subs : list (text * text)) (s : text) :
  (exists p, In p subs /\ parse_template (snd p) = None) ->
  apply_replacements subs s = None.
Proof.
  revert s. induction subs as [|[f t] subs IH]; intros s (p & Hp & Hbad).
  - destruct Hp.
  - simpl. unfold re_sub_ci. destruct (parse_template t) as [tpl|] eqn:T;
      [|reflexivity].
    apply IH. exists p. split; [|exact Hbad].
    destruct Hp as [<-|Hp]; [|exact Hp]. simpl in Hbad. congruence.
Qed.

Lemma all_descriptions_bad (env : Env) (uls : list (list text)) :
  (exists p, In p (replacement_list env) /\ parse_template (snd p) = None) ->
  (exists ul li, In ul uls /\ In li ul) ->
  all_descriptions env uls = None.
Proof.
  intros Hbad. induction uls as [|ul uls IH]; intros (u & li & Hu & Hli).
  - destruct Hu.
  - simpl. destruct (extract_descriptions env ul) as [d|] eqn:E;
      [|reflexivity].
    rewrite IH; [reflexivity|].
    destruct Hu as [<-|Hu]; [|now exists u, li].
    exfalso. destruct ul as [|x xs]; [destruct Hli|].
    simpl in E. unfold clean_item, rewrite in E.
    rewrite remove_keywords_total, (@apply_replacements_bad _ _ Hbad) in E.
    discriminate.
Qed.

End RewriteMore.

(** X13. One to-term that is no valid replacement template for a reason
    other than a group name (an escape of a letter [re] does not know, a
    numbered group reference, a backslash at the end) makes the whole pass
    fail as soon as the document has one list item: [re.sub] raises on the
    first item, whether or not the from-term occurs in it, and the pass
    ends with the parse-error diagnostic, no record and no unmatched
    name. *)
Theorem bad_template_fails_pass (env : Env) (csv : csv_file)
  (doc : Document) :
  (exists p, In p (replacement_list env)
             /\ has_group_name (snd p) = false
             /\ parse_template (snd p) = None) ->
  (exists ul li, In ul (description_tags doc) /\ In li ul) ->
  let w := parse_html_file env csv (FileContent doc) initial_world in
  country_data_list w = []
  /\ unmatched_countries w = []
  /\ In (Printed MsgHtmlError) (trace w).
Proof.
  intros (p & Hp & _ & Hbad) Hitem.
  apply (@parse_html_file_failed env csv doc initial_world).
  left. apply all_descriptions_bad; [|exact Hitem].
  exists p. now split.
Qed.

(** Witness of X11. *)
Lemma rewrite_without_occurrence_witness :
  rewrite [str "Foo"] [(str "km", str "mi")] (str "new roads")
  = Some (str "new roads").
Proof.
  refine (@rewrite_without_occurrence [str "Foo"] [(str "km", str "mi")]
            (str "new roads") _ _).
  - intros k [<-|[]]. reflexivity.
  - intros p [<-|[]]. split; [reflexivity|discriminate].
Defined.

(** Witness of X12. *)
Lemma extract_descriptions_literal_witness :
  extract_descriptions km_to_mi_rules [str " 100  KM of new roads "]
  = Some [str "100 mi of  roads"].
Proof.
  refine (eq_trans
            (@extract_descriptions_literal km_to_mi_rules
               [str " 100  KM of new roads "] _) _).
  - vm_compute. intros [H|[H|[]]]; discriminate.
  - vm_compute. reflexivity.
Defined.

(** Witness of X13. *)
Lemma bad_template_fails_pass_witness :
  country_data_list
    (parse_html_file bad_template_rules sample_csv (FileContent doc_general)
       initial_world) = [].
Proof.
  refine (proj1 (@bad_template_fails_pass bad_template_rules sample_csv
                   doc_general _ _)).
  - exists (str "km", str "\1"). split; [left; reflexivity|].
    split; reflexivity.
  - exists [str "preamble"], (str "preamble"). split; left; reflexivity.
Defined.

(** ** Extractor: pairing, codes and unmatched names *)

Section ExtractorMore.

Variable env : Env.
Variable csv : csv_file.

Lemma drop_general_kept (names : list text) (ds : list (list text)) :
  (forall first rest, names = first :: rest -> lower first <> GENERAL) ->
  drop_general names ds = Some (names, ds).
Proof.
  intros H. destruct names as [|first rest]; [reflexivity|].
  unfold drop_general, text_eqb.
  destruct (list_eq_dec ascii_dec (lower first) GENERAL) as [E|E];
    [|reflexivity].
  exfalso. exact (H first rest eq_refl E).
Qed.

(** X14. A document with as many description blocks as country blocks,
    whose first country name is not "general", gives one record per
    block, in document order: the i-th record has the i-th sanitized
    name, the code [get_iso_code] returns for that name, the lines of the
    i-th description block joined by newlines, and the version of the
    document. *)
Theorem parse_html_file_pairs_blocks (doc : Document)
  (ds : list (list text)) :
  all_descriptions env (description_tags doc) = Some ds ->
  length (country_name_tags doc) = length (description_tags doc) ->
  (forall first rest, country_name_tags doc = first :: rest ->
     lower (sanitize_text first) <> GENERAL) ->
  let w := parse_html_file env csv (FileContent doc) initial_world in
  let names := map sanitize_text (country_name_tags doc) in
  length (country_data_list w) = length (country_name_tags doc)
  /\ map name (country_data_list w) = names
  /\ map iso_code (country_data_list w)
     = map (fun n => fst (get_iso_code csv n)) names
  /\ map description (country_data_list w) = map (join [NEWLINE]) ds
  /\ (forall c, In c (country_data_list w) ->
        version c = fst (data_source_version doc)).
Proof.
  intros Hd Hlen Hfirst w names.
  assert (Hg : drop_general names ds = Some (names, ds)).
  { apply drop_general_kept. intros first rest E.
    unfold names in E. destruct (country_name_tags doc) as [|x xs] eqn:N;
      [discriminate|].
    simpl in E. injection E as <- _. exact (Hfirst x xs eq_refl). }
  assert (Hl : length names = length ds).
  { unfold names. rewrite length_map, (all_descriptions_length _ _ Hd).
    exact Hlen. }
  destruct (@parse_html_file_completed env csv doc initial_world ds names ds
              Hd Hg) as (R & _ & _).
  fold w in R. simpl in R. rewrite Hl, Nat.eqb_refl in R.
  destruct (make_country_fields (fst (data_source_version doc))
              (zip3 names (map (fun n => fst (get_iso_code csv n)) names) ds))
    as (F1 & F2 & F3 & _).
  destruct (zip3_map_names (fun n => fst (get_iso_code csv n)) names ds Hl)
    as (Z1 & Z2 & Z3).
  assert (Hn : map name (country_data_list w) = names)
    by (rewrite R, F1; exact Z1).
  split; [|split; [exact Hn|split; [|split]]].
  - rewrite <- (length_map name), Hn. unfold names. apply length_map.
  - rewrite R, F2. exact Z3.
  - rewrite R, F3, Z2. reflexivity.
  - intros c Hc. rewrite R in Hc. apply in_map_iff in Hc.
    destruct Hc as ([[n i] d] & <- & _). reflexivity.
Qed.

Lemma zip3_unresolved (v : text) (names : list text)
  (descs : list (list text)) :
  length names = length descs ->
  map name
    (filter no_code
       (map (make_country v)
          (zip3 names (map (fun n => fst (get_iso_code csv n)) names) descs)))
  = filter (unresolved csv) names.
Proof.
  revert descs. induction names as [|n names IH]; intros [|d descs] H;
    try discriminate; [reflexivity|].
  simpl in H. injection H as H. cbn [map zip3 filter].
  unfold no_code at 1. unfold unresolved at 1. cbn [make_country iso_code].
  destruct (fst (get_iso_code csv n)); cbn [map name]; now rewrite (IH _ H).
Qed.

(** Whenever the pass builds a record, the unmatched names are the names
    of the records without code, in order. *)
Lemma parse_html_file_unmatched (html : file_source Document) :
  let w := parse_html_file env csv html initial_world in
  country_data_list w <> [] ->
  unmatched_countries w = map name (filter no_code (country_data_list w)).
Proof.
  cbv zeta. destruct html as [| |doc]; try (simpl; congruence).
  destruct (all_descriptions env (description_tags doc)) as [ds|] eqn:Hd.
  2:{ destruct (@parse_html_file_failed env csv doc initial_world)
        as (R & _ & _); [now left|]. rewrite R. simpl. congruence. }
  destruct (drop_general (map sanitize_text (country_name_tags doc)) ds)
    as [[names descs]|] eqn:Hg.
  2:{ destruct (@parse_html_file_failed env csv doc initial_world)
        as (R & _ & _); [right; exists ds; auto|].
      rewrite R. simpl. congruence. }
  destruct (@parse_html_file_completed env csv doc initial_world ds names
              descs Hd Hg) as (R & U & _).
  change (country_data_list initial_world) with (@nil CountryInfo) in R.
  change (unmatched_countries initial_world) with (@nil text) in U.
  rewrite !app_nil_l in R, U. rewrite R, U.
  destruct (length names =? length descs) eqn:L; [|congruence].
  intros _. apply Nat.eqb_eq in L. symmetry. now apply zip3_unresolved.
Qed.

(** X15. The unmatched list and the records agree: in any pass that
    builds a record, the unmatched names are exactly the names of the
    records without ISO code, in record order; so a record without code
    always has its name in the unmatched list, and an empty unmatched
    list means every record has a code. *)
Theorem unmatched_are_records_without_code (html : file_source Document) :
  let w := parse_html_file env csv html initial_world in
  (country_data_list w <> [] ->
   unmatched_countries w = map name (filter no_code (country_data_list w)))
  /\ (forall c, In c (country_data_list w) -> iso_code c = None ->
        In (name c) (unmatched_countries w))
  /\ (unmatched_countries w = [] ->
      forall c, In c (country_data_list w) -> iso_code c <> None).
Proof.
  intros w. pose proof (parse_html_file_unmatched html) as P. fold w in P.
  cbv zeta in P.
  assert (Q : forall c, In c (country_data_list w) -> iso_code c = None ->
                In (name c) (unmatched_countries w)).
  { intros c Hc Hi. rewrite P.
    - apply in_map. apply filter_In. split; [exact Hc|].
      unfold no_code. now rewrite Hi.
    - intros E. rewrite E in Hc. destruct Hc. }
  split; [exact P|]. split; [exact Q|].
  intros U c Hc Hi. specialize (Q c Hc Hi). rewrite U in Q. destruct Q.
Qed.

End ExtractorMore.

(** Witness of X14. *)
Lemma parse_html_file_pairs_blocks_witness :
  let doc := {| title := Some (str "Release Notes 2024.03");
                country_name_tags := [str "Argentina"; str " Peru "];
                description_tags := [[str "roads"]; [str "new  signs"]] |} in
  map name
    (country_data_list
       (parse_html_file no_rules sample_csv (FileContent doc) initial_world))
  = [str "Argentina"; str "Peru"].
Proof.
  intros doc.
  refine (proj1 (proj2
            (@parse_html_file_pairs_blocks no_rules sample_csv doc
               [[str "roads"]; [str "new signs"]] eq_refl eq_refl _))).
  intros first rest [= <- _]. vm_compute. discriminate.
Defined.

(** ** Upload loop and [main] on any database *)

Section UploadMore.

Lemma database_errors_app (a b : list event) :
  database_errors (a ++ b) = database_errors a + database_errors b.
Proof.
  induction a as [|[m|v i d] a IH]; simpl; [reflexivity| |exact IH].
  destruct m; simpl; now rewrite ?IH.
Qed.

Lemma first_connect_failure_spec (db : database) (len : nat) :
  forall n,
  match first_connect_failure db n len with
  | Some i => i < len /\ db (n + i) = DbConnectFails
              /\ forall j, j < i -> db (n + j) <> DbConnectFails
  | None => forall j, j < len -> db (n + j) <> DbConnectFails
  end.
Proof.
  induction len as [|len IH]; intros n; simpl.
  - intros j Hj. lia.
  - specialize (IH (S n)).
    assert (Step : db n <> DbConnectFails ->
              match option_map S (first_connect_failure db (S n) len) with
              | Some i => i < S len /\ db (n + i) = DbConnectFails
                          /\ forall j, j < i -> db (n + j) <> DbConnectFails
              | None => forall j, j < S len -> db (n + j) <> DbConnectFails
              end).
    { intros H0. destruct (first_connect_failure db (S n) len) as [i|]; simpl.
      - destruct IH as (I1 & I2 & I3). split; [lia|]. split.
        + now replace (n + S i) with (S n + i) by lia.
        + intros [|j] Hj; [now rewrite Nat.add_0_r|].
          replace (n + S j) with (S n + j) by lia. apply I3. lia.
      - intros [|j] Hj; [now rewrite Nat.add_0_r|].
        replace (n + S j) with (S n + j) by lia. apply IH. lia. }
    destruct (db n) eqn:E.
    + apply Step. discriminate.
    + apply Step. discriminate.
    + split; [lia|]. split; [now rewrite Nat.add_0_r|]. intros j Hj. lia.
Qed.

(** The loop on any database: it hands over the records up to and
    including the first one at which the database cannot be reached. *)
Lemma upload_loop_spec (db : database) (cs : list CountryInfo) :
  forall (n : nat) (w : World),
  let r := upload_loop db n cs w in
  let k := match first_connect_failure db n (length cs) with
           | Some i => S i
           | None => length cs
           end in
  snd r = match first_connect_failure db n (length cs) with
          | Some _ => Raised
          | None => Returned
          end
  /\ country_data_list (fst r) = country_data_list w
  /\ unmatched_countries (fst r) = unmatched_countries w
  /\ insert_calls (trace (fst r))
     = insert_calls (trace w) ++ map upsert_args (firstn k cs)
  /\ reported_names (trace (fst r)) = reported_names (trace w)
  /\ listed_countries (trace (fst r)) = listed_countries (trace w)
  /\ database_errors (trace (fst r))
     = database_errors (trace w) + failed_calls db n k.
Proof.
  induction cs as [|c cs IH]; intros n w.
  - simpl. rewrite app_nil_r, Nat.add_0_r. now repeat split.
  - cbn [upload_loop length first_connect_failure].
    unfold insert_into_database.
    set (w1 := emit w [InsertCall (version c) (iso_code c) (description c)]).
    destruct (db n) eqn:E.
    + specialize (IH (S n) w1). cbv zeta in IH.
      destruct (first_connect_failure db (S n) (length cs)) as [i|];
        cbn [option_map]; destruct IH as (I1 & I2 & I3 & I4 & I5 & I6 & I7);
        rewrite I1, I2, I3, I4, I5, I6, I7; unfold w1, emit; cbn [trace
          country_data_list unmatched_countries firstn map failed_calls];
        rewrite E, insert_calls_app, reported_names_app,
          listed_countries_app, database_errors_app; simpl;
        rewrite ?app_nil_r, <- ?app_assoc, ?Nat.add_0_r; now repeat split.
    + specialize (IH (S n) (print w1 MsgDatabaseError)). cbv zeta in IH.
      destruct (first_connect_failure db (S n) (length cs)) as [i|];
        cbn [option_map]; destruct IH as (I1 & I2 & I3 & I4 & I5 & I6 & I7);
        rewrite I1, I2, I3, I4, I5, I6, I7; unfold w1, print, emit; cbn [trace
          country_data_list unmatched_countries firstn map failed_calls];
        rewrite E, !insert_calls_app, !reported_names_app,
          !listed_countries_app, !database_errors_app; simpl;
        rewrite ?app_nil_r, <- ?app_assoc, ?Nat.add_0_r;
        repeat split; lia.
    + unfold w1, print, emit. cbn [fst snd trace country_data_list
        unmatched_countries firstn map failed_calls].
      rewrite E, !insert_calls_app, !reported_names_app,
        !listed_countries_app, !database_errors_app. simpl.
      rewrite ?app_nil_r, ?Nat.add_0_r. repeat split; lia.
Qed.

End UploadMore.

Section MainMore.

Lemma firstn_In_list {A : Type} (k : nat) (l : list A) (x : A) :
  In x (firstn k l) -> In x l.
Proof.
  intros H. rewrite <- (firstn_skipn k l). apply in_or_app. now left.
Qed.

Lemma calls_made_le (db : database) (len : nat) : calls_made db len <= len.
Proof.
  unfold calls_made. pose proof (first_connect_failure_spec db len 0) as S.
  destruct (first_connect_failure db 0 len); [destruct S; lia|lia].
Qed.

Lemma reachable_iff (db : database) (len : nat) :
  first_connect_failure db 0 len = None <-> reachable db len.
Proof.
  pose proof (first_connect_failure_spec db len 0) as S.
  destruct (first_connect_failure db 0 len) as [i|]; simpl in S.
  - split; [discriminate|]. intros R. destruct S as (S1 & S2 & _).
    exfalso. exact (R i S1 S2).
  - split; [|reflexivity]. intros _ i Hi. exact (S i Hi).
Qed.

(** X16. On any database, [upload_data_to_db] hands the records over in
    list order, each at most once, and stops right after the first record
    at which the database cannot be reached: the calls are a prefix of the
    record list.  The function returns exactly when the database can be
    reached for every record, and then the whole list was handed over;
    when it raises, the last record handed over is the one the connection
    failed for, so the whole list was handed over as well exactly when
    that record is the last of the list. *)
Theorem upload_data_to_db_hands_prefix (db : database) (w : World) :
  let r := upload_data_to_db db w in
  let k := calls_made db (length (country_data_list w)) in
  insert_calls (trace (fst r))
  = insert_calls (trace w) ++ map upsert_args (firstn k (country_data_list w))
  /\ k <= length (country_data_list w)
  /\ (snd r = Returned <-> reachable db (length (country_data_list w)))
  /\ (snd r = Returned -> k = length (country_data_list w))
  /\ (snd r = Raised ->
      exists i, k = S i /\ db i = DbConnectFails /\ reachable db i)
  /\ (k = length (country_data_list w)
      <-> snd r = Returned
          \/ exists i, S i = length (country_data_list w)
                       /\ db i = DbConnectFails /\ reachable db i)
  /\ country_data_list (fst r) = country_data_list w.
Proof.
  intros r k. unfold r, upload_data_to_db.
  destruct (upload_loop_spec db (country_data_list w) 0 w)
    as (S1 & S2 & _ & S4 & _).
  pose proof (first_connect_failure_spec db (length (country_data_list w)) 0)
    as F.
  pose proof (reachable_iff db (length (country_data_list w))) as Q.
  unfold k, calls_made. rewrite S1, S2, S4.
  destruct (first_connect_failure db 0 (length (country_data_list w)))
    as [i|]; simpl in F.
  - destruct F as (F1 & F2 & F3).
    split; [reflexivity|]. split; [lia|]. split.
    + split; [discriminate|]. intros R. apply Q in R. discriminate.
    + split; [discriminate|]. split.
      * intros _. exists i. split; [reflexivity|].
        split; [exact F2|exact F3].
      * split; [|reflexivity]. split.
        -- intros E. right. exists i. split; [exact E|].
           split; [exact F2|exact F3].
        -- intros [X|(j & Ej & Fj & Rj)]; [discriminate|].
           destruct (Nat.lt_trichotomy i j) as [L|[L|L]].
           ++ exfalso. exact (Rj i L F2).
           ++ now subst j.
           ++ exfalso. exact (F3 j L Fj).
  - split; [reflexivity|]. split; [lia|]. split.
    + split; [intros _; now apply Q|reflexivity].
    + split; [reflexivity|]. split; [discriminate|].
      split; [|reflexivity]. split; [now left|reflexivity].
Qed.

Lemma failed_calls_le (db : database) (k : nat) :
  forall n, failed_calls db n k <= k.
Proof.
  induction k as [|k IH]; intros n; simpl; [lia|].
  specialize (IH (S n)). destruct (db n); lia.
Qed.

Lemma failed_calls_none (db : database) (k : nat) :
  forall n, (forall j, j < k -> db (n + j) = DbStored) ->
  failed_calls db n k = 0.
Proof.
  induction k as [|k IH]; intros n H; [reflexivity|]. simpl.
  pose proof (H 0 ltac:(lia)) as H0. rewrite Nat.add_0_r in H0. rewrite H0.
  apply IH. intros j Hj. replace (S n + j) with (n + S j) by lia.
  apply H. lia.
Qed.

(** X17. A failing call is logged and, unless it is a connection failure,
    does not stop the batch: [upload_data_to_db] prints one
    "Database Error" line for each call the database did not store and
    none for a stored one; when every failure is a query failure the
    function returns after handing over every record. *)
Theorem upload_data_to_db_logs_failures (db : database) (w : World) :
  let r := upload_data_to_db db w in
  let len := length (country_data_list w) in
  database_errors (trace (fst r))
  = database_errors (trace w) + failed_calls db 0 (calls_made db len)
  /\ failed_calls db 0 (calls_made db len) <= calls_made db len
  /\ ((forall i, i < len -> db i = DbStored) ->
      database_errors (trace (fst r)) = database_errors (trace w))
  /\ (reachable db len ->
      snd r = Returned
      /\ insert_calls (trace (fst r))
         = insert_calls (trace w) ++ map upsert_args (country_data_list w)).
Proof.
  intros r len. unfold r, upload_data_to_db.
  destruct (upload_loop_spec db (country_data_list w) 0 w)
    as (S1 & _ & _ & S4 & _ & _ & S7).
  fold len in S1, S4, S7.
  assert (K : (match first_connect_failure db 0 len with
               | Some i => S i
               | None => len
               end) = calls_made db len) by reflexivity.
  rewrite K in S4, S7.
  split; [exact S7|]. split; [apply failed_calls_le|]. split.
  - intros H. rewrite S7, failed_calls_none; [lia|].
    intros j Hj. apply H. pose proof (calls_made_le db len). simpl. lia.
  - intros R. apply reachable_iff in R. fold len in R.
    rewrite S1, S4. unfold calls_made. rewrite R.
    split; [reflexivity|]. unfold len. now rewrite firstn_all.
Qed.

(** [main] after the pass, on any database, when no name is unmatched. *)
Lemma orchestrate_spec (db : database) (w : World) :
  unmatched_countries w = [] ->
  let r := orchestrate db w in
  let len := length (country_data_list w) in
  snd r = match first_connect_failure db 0 len with
          | Some _ => Raised
          | None => Returned
          end
  /\ country_data_list (fst r) = country_data_list w
  /\ insert_calls (trace (fst r))
     = insert_calls (trace w)
       ++ map upsert_args (firstn (calls_made db len) (country_data_list w))
  /\ reported_names (trace (fst r)) = reported_names (trace w)
  /\ listed_countries (trace (fst r))
     = listed_countries (trace w)
       ++ match first_connect_failure db 0 len with
          | Some _ => []
          | None => country_data_list w
          end.
Proof.
  intros U r len. unfold r, orchestrate.
  cbn [unmatched_countries print emit]. rewrite U.
  unfold upload_data_to_db. cbn [country_data_list print emit].
  match goal with |- context [upload_loop db 0 _ ?x] =>
    destruct (upload_loop_spec db (country_data_list w) 0 x)
      as (S1 & S2 & _ & S4 & S5 & S6 & _);
    destruct (upload_loop db 0 (country_data_list w) x) as [w1 c]
  end.
  unfold print, emit in S1, S2, S4, S5, S6.
  cbn [fst snd trace country_data_list] in S1, S2, S4, S5, S6.
  rewrite ?insert_calls_app, ?reported_names_app, ?listed_countries_app
    in S4, S5, S6.
  simpl in S4, S5, S6. rewrite ?app_nil_r in S4, S5, S6.
  fold len in S1, S4. subst c. unfold calls_made.
  destruct (first_connect_failure db 0 len) as [i|]; cbn [fst snd].
  - rewrite S2, S4, S5, S6.
    rewrite !insert_calls_app, !reported_names_app, !listed_countries_app.
    simpl. rewrite ?app_nil_r. now repeat split.
  - destruct (display_all_countries_lists w1) as (D1 & _ & D3 & D4 & D5).
    rewrite D1, D3, D4, D5, S2, S4, S5, S6.
    rewrite !insert_calls_app, !reported_names_app, !listed_countries_app.
    simpl. rewrite ?app_nil_r. now repeat split.
Qed.

End MainMore.

Section MainOutcome.

Variable env : Env.
Variable csv : csv_file.
Variable html : file_source Document.
Variable db : database.

Let w := parse_html_file env csv html initial_world.
Let r := main env csv html db.

Lemma pass_trace_silent :
  insert_calls (trace w) = [] /\ reported_names (trace w) = []
  /\ listed_countries (trace w) = [].
Proof. exact (parse_html_file_silent env csv html initial_world). Qed.

(** X18. [main] never hands a record without ISO code to the database:
    every call of [insert_into_database] carries the version, code and
    description of one record of the pass, and that code is present. *)
Theorem main_never_inserts_without_code
  (call : text * option text * text) :
  In call (insert_calls (trace (fst r))) ->
  exists c, In c (country_data_list w)
            /\ call = upsert_args c /\ iso_code c <> None.
Proof.
  destruct pass_trace_silent as (T1 & _ & _).
  unfold r, main. fold w.
  destruct (unmatched_countries w) as [|u us] eqn:U.
  - destruct (@orchestrate_spec db w U) as (_ & _ & S3 & _). rewrite S3, T1.
    simpl. intros H. apply in_map_iff in H. destruct H as (c & <- & Hc).
    apply firstn_In_list in Hc. exists c. split; [exact Hc|].
    split; [reflexivity|]. intros Hi.
    pose proof (@parse_html_file_unmatched env csv html) as P.
    cbv zeta in P. fold w in P.
    assert (N : country_data_list w <> [])
      by (intros E; rewrite E in Hc; destruct Hc).
    specialize (P N). rewrite U in P.
    assert (In (name c) (map name (filter no_code (country_data_list w)))).
    { apply in_map, filter_In. split; [exact Hc|].
      unfold no_code. now rewrite Hi. }
    rewrite <- P in H. destruct H.
  - destruct (@orchestrate_blocked db w) as (w' & E & _ & _ & H3 & _).
    { rewrite U. discriminate. }
    rewrite E. cbn [fst]. rewrite H3, T1. intros [].
Qed.

(** X19. How [main] ends: it is left by an exception exactly when no name
    is unmatched and the database cannot be reached for one of the
    records.  When it returns, it has listed every record of the pass,
    once and in order, whether or not anything was uploaded; when it is
    left by the exception, no record was listed. *)
Theorem main_outcome :
  (snd r = Raised
   <-> unmatched_countries w = []
       /\ exists i, i < length (country_data_list w)
                    /\ db i = DbConnectFails)
  /\ (snd r = Returned ->
      listed_countries (trace (fst r)) = country_data_list w)
  /\ (snd r = Raised -> listed_countries (trace (fst r)) = [])
  /\ country_data_list (fst r) = country_data_list w.
Proof.
  destruct pass_trace_silent as (_ & _ & T3).
  unfold r, main. fold w.
  destruct (unmatched_countries w) as [|u us] eqn:U.
  - destruct (@orchestrate_spec db w U) as (S1 & S2 & _ & _ & S5).
    pose proof (first_connect_failure_spec db
                  (length (country_data_list w)) 0) as F.
    pose proof (reachable_iff db (length (country_data_list w))) as Q.
    rewrite S1, S2, S5, T3.
    destruct (first_connect_failure db 0 (length (country_data_list w)))
      as [i|]; simpl in F.
    + destruct F as (F1 & F2 & _). split.
      * split; [|reflexivity]. intros _. split; [reflexivity|]. now exists i.
      * split; [discriminate|]. now split.
    + split.
      * split; [discriminate|]. intros (_ & i & Hi & Hf).
        exfalso. exact (F i Hi Hf).
      * split; [reflexivity|]. split; [discriminate|reflexivity].
  - destruct (@orchestrate_blocked db w) as (w' & E & H1 & _ & _ & _ & H5).
    { rewrite U. discriminate. }
    rewrite E. cbn [fst snd]. rewrite H1, H5, T3. split.
    + split; [discriminate|]. intros (X & _). discriminate.
    + split; [reflexivity|]. split; [discriminate|reflexivity].
Qed.

End MainOutcome.

(** X20. A document that is missing or unreadable does not stop the run
    and the reference table is not even opened: [main] prints the
    diagnostic, a total count of 0 and the upload announcement, hands
    nothing to the database, prints an empty listing and returns, whatever
    the rewrite rules, the reference table and the database are. *)
Theorem missing_document_run (env : Env) (csv : csv_file)
  (html : file_source Document) (db : database) :
  html = FileMissing \/ html = FileUnreadable ->
  main env csv html db
  = ({| country_data_list := [];
        unmatched_countries := [];
        trace := [Printed (match html with
                           | FileMissing => MsgHtmlNotFound
                           | _ => MsgHtmlError
                           end);
                  Printed (MsgTotalCount 0); Printed MsgUploading;
                  Printed MsgSeparator; Printed MsgSeparator] |},
     Returned).
Proof. intros [->| ->]; reflexivity. Qed.

(** Witness of X18. *)
Lemma main_never_inserts_without_code_witness :
  exists c,
    In c (country_data_list
            (parse_html_file no_rules sample_csv (FileContent doc_general)
               initial_world))
    /\ (str "2024.03", Some (str "BR"), str "speed limits") = upsert_args c
    /\ iso_code c <> None.
Proof.
  refine (@main_never_inserts_without_code no_rules sample_csv
            (FileContent doc_general) db_up
            (str "2024.03", Some (str "BR"), str "speed limits") _).
  vm_compute. right. left. reflexivity.
Defined.

(** Witness of X20. *)
Lemma missing_document_run_witness :
  snd (main no_rules sample_csv FileMissing db_unreachable) = Returned.
Proof.
  exact (f_equal snd
           (@missing_document_run no_rules sample_csv FileMissing
              db_unreachable (or_introl eq_refl))).
Defined.

(** ** Edge cases of the rule lists, the version and the accumulators *)

Section Edges.

Lemma expand_template_literal (t m : text) :
  expand_template (map Lit t) m = t.
Proof.
  unfold expand_template. induction t as [|c t IH]; [reflexivity|].
  simpl. now rewrite IH.
Qed.

Lemma sub_scan_delete_length (p : text) (s : text) :
  forall skip, length (sub_scan p [] skip s) <= length s.
Proof.
  induction s as [|c s IH]; intros skip.
  - destruct p; simpl; lia.
  - cbn [sub_scan]. destruct skip as [|k].
    + destruct (match_here p (c :: s)).
      * destruct p as [|a p']; simpl.
        -- specialize (IH 0). lia.
        -- specialize (IH (length p')). lia.
      * simpl. specialize (IH 0). lia.
    + simpl. specialize (IH k). lia.
Qed.

Lemma sub_scan_empty_keyword (s : text) : sub_scan [] [] 0 s = s.
Proof.
  induction s as [|c s IH]; [reflexivity|].
  cbn [sub_scan]. rewrite match_here_nil. simpl. now rewrite IH.
Qed.

(** X21. Keyword removal cannot fail and only deletes: the result is
    never longer than the item, and an empty keyword (as a doubled or
    trailing comma in [REMOVE_WORD] gives) removes nothing. *)
Theorem remove_keywords_only_deletes (keywords : list text) (s : text) :
  (exists s', remove_keywords keywords s = Some s'
              /\ length s' <= length s)
  /\ remove_keywords ([] :: keywords) s = remove_keywords keywords s.
Proof.
  split.
  - revert s. induction keywords as [|k ks IH]; intros s.
    + exists s. split; [reflexivity|lia].
    + simpl. unfold re_sub_ci. simpl.
      destruct (IH (sub_scan k [] 0 s)) as (s' & E & L).
      exists s'. split; [exact E|].
      pose proof (sub_scan_delete_length k s 0). lia.
  - simpl. unfold re_sub_ci. simpl. now rewrite sub_scan_empty_keyword.
Qed.

Lemma sub_scan_empty_from (t s : text) :
  sub_scan [] (map Lit t) 0 s = t ++ flat_map (fun c => c :: t) s.
Proof.
  induction s as [|c s IH].
  - simpl. rewrite expand_template_literal. now rewrite app_nil_r.
  - cbn [sub_scan]. rewrite match_here_nil, expand_template_literal, IH.
    reflexivity.
Qed.

(** X22. An empty from-term (as a doubled or trailing comma in
    [CHANGE_PARAMETER1] gives) matches at every position: its to-term is
    inserted before every character of the item and at its end. *)
Theorem empty_from_term_inserts_everywhere (to_term s : text) :
  no_backslash to_term ->
  apply_replacements [([], to_term)] s
  = Some (to_term ++ flat_map (fun c => c :: to_term) s).
Proof.
  intros H. simpl. rewrite (@re_sub_ci_literal [] to_term s H).
  unfold replace_literal. now rewrite sub_scan_empty_from.
Qed.

(** X23. With no rule configured the description lines are the sanitized
    list items: when [REMOVE_WORD] is blank and one of
    [CHANGE_PARAMETER1], [CHANGE_PARAMETER2] is blank, extraction of a
    block returns [sanitize_text] of each item, in order, whatever the
    other variable holds. *)
Theorem extract_descriptions_no_rules (env : Env) (list_items : list text) :
  REMOVE_KEYWORDS env = [] ->
  CHANGE_FROM env = [] \/ CHANGE_TO env = [] ->
  extract_descriptions env list_items = Some (map sanitize_text list_items).
Proof.
  intros Hk Hc.
  assert (K : keyword_list env = [])
    by (unfold keyword_list; now rewrite Hk).
  assert (R : replacement_list env = []).
  { unfold replacement_list, pair_terms.
    destruct Hc as [-> | ->]; [reflexivity|].
    destruct (CHANGE_FROM env); reflexivity. }
  induction list_items as [|li rest IH]; [reflexivity|].
  simpl. unfold clean_item. rewrite K, R, IH. reflexivity.
Qed.

Lemma split_ws_aux_tokens (s : text) :
  forall cur t,
  forallb visible cur = true ->
  In t (split_ws_aux cur s) -> t <> [] /\ forallb visible t = true.
Proof.
  assert (R : forall cur, forallb visible cur = true -> cur <> [] ->
                rev cur <> [] /\ forallb visible (rev cur) = true).
  { intros cur V N. split.
    - intros E. apply N. apply (f_equal (@rev ascii)) in E.
      now rewrite rev_involutive in E.
    - apply forallb_forall. intros x Hx. apply in_rev in Hx.
      revert x Hx. now apply forallb_forall. }
  induction s as [|c s IH]; intros cur t V.
  - simpl. destruct cur as [|x cur]; [intros []|].
    intros [<-|[]]. apply R; [exact V|discriminate].
  - simpl. destruct (is_space c) eqn:E.
    + destruct cur as [|x cur].
      * apply IH. reflexivity.
      * intros [<-|H]; [apply R; [exact V|discriminate]|].
        revert H. apply IH. reflexivity.
    + apply IH. simpl. unfold visible at 1. now rewrite E.
Qed.

(** X24. The version of a pass is the third white-space-separated word
    of the title when the title has three words, and then it is not empty
    and holds no white space; in every other case (no title, fewer than
    three words) it is "Unknown" and the warning is printed. *)
Theorem data_source_version_token (doc : Document) :
  (snd (data_source_version doc) = []
   /\ (exists t, title doc = Some t
                 /\ nth_error (split_ws t) 2
                    = Some (fst (data_source_version doc)))
   /\ fst (data_source_version doc) <> []
   /\ forallb visible (fst (data_source_version doc)) = true)
  \/ (snd (data_source_version doc) = [MsgVersionWarning]
      /\ fst (data_source_version doc) = UNKNOWN
      /\ match title doc with
         | Some t => length (split_ws t) < 3
         | None => True
         end).
Proof.
  unfold data_source_version. destruct (title doc) as [t|]; [|now right].
  pose proof (fun x => @split_ws_aux_tokens t [] x eq_refl) as T.
  fold (split_ws t) in T.
  destruct (split_ws t) as [|a [|b [|v rest]]] eqn:S; try (right; simpl;
    repeat split; lia).
  left. simpl. split; [reflexivity|].
  split; [exists t; split; [reflexivity|now rewrite S]|].
  apply T. right. right. now left.
Qed.

(** X25. The pass only appends to the two module-level lists, and what
    it appends does not depend on what they held: run on any state, it
    leaves the earlier records and unmatched names in place and adds
    those it would add to empty lists (a second run in the same process
    would list every country twice). *)
Theorem parse_html_file_appends (env : Env) (csv : csv_file)
  (html : file_source Document) (w : World) :
  country_data_list (parse_html_file env csv html w)
  = country_data_list w
    ++ country_data_list (parse_html_file env csv html initial_world)
  /\ unmatched_countries (parse_html_file env csv html w)
     = unmatched_countries w
       ++ unmatched_countries (parse_html_file env csv html initial_world).
Proof.
  destruct html as [| |doc]; try (simpl; now rewrite !app_nil_r).
  destruct (all_descriptions env (description_tags doc)) as [ds|] eqn:Hd.
  2:{ destruct (@parse_html_file_failed env csv doc w) as (R & U & _);
        [now left|].
      destruct (@parse_html_file_failed env csv doc initial_world)
        as (R0 & U0 & _); [now left|].
      rewrite R, U, R0, U0. simpl. now rewrite !app_nil_r. }
  destruct (drop_general (map sanitize_text (country_name_tags doc)) ds)
    as [[names descs]|] eqn:Hg.
  2:{ destruct (@parse_html_file_failed env csv doc w) as (R & U & _);
        [right; exists ds; auto|].
      destruct (@parse_html_file_failed env csv doc initial_world)
        as (R0 & U0 & _); [right; exists ds; auto|].
      rewrite R, U, R0, U0. simpl. now rewrite !app_nil_r. }
  destruct (@parse_html_file_completed env csv doc w ds names descs Hd Hg)
    as (R & U & _).
  destruct (@parse_html_file_completed env csv doc initial_world ds names
              descs Hd Hg) as (R0 & U0 & _).
  rewrite R, U, R0, U0. simpl. now split.
Qed.

End Edges.

(** Witness of X22. *)
Lemma empty_from_term_inserts_everywhere_witness :
  apply_replacements [([], str "-")] (str "abc") = Some (str "-a-b-c-").
Proof.
  refine (eq_trans (@empty_from_term_inserts_everywhere (str "-") (str "abc")
                      _) eq_refl).
  intros [H|[]]. discriminate.
Defined.

(** Witness of X23: a from-term without to-term changes nothing. *)
Lemma extract_descriptions_no_rules_witness :
  extract_descriptions
    {| REMOVE_WORD := str "  "; CHANGE_PARAMETER1 := str "km";
       CHANGE_PARAMETER2 := [] |}
    [str " 100  km "]
  = Some [str "100 km"].
Proof.
  exact (@extract_descriptions_no_rules
           {| REMOVE_WORD := str "  "; CHANGE_PARAMETER1 := str "km";
              CHANGE_PARAMETER2 := [] |}
           [str " 100  km "] eq_refl (or_intror eq_refl)).
Defined.

(** ** Count mismatch: reported, not raised *)

Section CountMismatch.



End CountMismatch.


